(** * polaris_circle.client: a shallow embedding of [CircleClient]

    The client of [src/polaris_circle/client.py] is a thin layer over a
    [requests] session: every operation shapes one HTTP request (query
    parameters or a JSON body), hands it to the session and returns the
    parsed body.  The embedding follows the source line by line:

    - Python values are modelled by the types the annotations give them
      ([Optional[str]] is [option string], [int] is [Z], [float] is the
      IEEE model [spec_float]); truthiness ([if x:], [x or y]) is the
      class [Truthy];
    - [datetime.strftime] and [str(Decimal)] are the two library routines
      the request shaping relies on; both are modelled as executable
      functions after the CPython library ([datetime], [_pydecimal]);
      what they take from their surroundings (how the C library prints
      [%Y], the [capitals] flag of the decimal context) is a parameter;
    - sessions are objects in a store, so that an injected session is
      shared, not copied; an operation is a computation in a state and
      exception monad over that store and the list of requests put on the
      wire; the remote service is a parameter. *)

From stdpp Require Import gmap strings list fin_maps pretty.
From Stdlib Require Import ZArith String Ascii SpecFloat.

Local Open Scope string_scope.

(** ** Python values *)

Module Py.

(** [int] and [float] values, as the annotation [Optional[float]] of
    [timeout] admits both (its default, [10], is an [int]). *)
Inductive number :=
| PyInt (z : Z)
| PyFloat (f : spec_float).

(** A value put in a query-parameter dict: [str] or [int]. *)
Inductive value :=
| VStr (s : string)
| VInt (z : Z).

(** [bool(x)], the test behind [if x:] and [x or y]. *)
Class Truthy (A : Type) := truthy : A -> bool.

#[export] Instance truthy_bool : Truthy bool := fun b => b.

#[export] Instance truthy_str : Truthy string :=
  fun s => match s with EmptyString => false | String _ _ => true end.

#[export] Instance truthy_int : Truthy Z :=
  fun z => negb (z =? 0)%Z.

#[export] Instance truthy_float : Truthy spec_float :=
  fun f => match f with S754_zero _ => false | _ => true end.

#[export] Instance truthy_number : Truthy number :=
  fun n => match n with PyInt z => truthy z | PyFloat f => truthy f end.

(** [None] is falsy; any other value answers for itself. *)
#[export] Instance truthy_optional {A} `{Truthy A} : Truthy (option A) :=
  fun o => match o with None => false | Some a => truthy a end.

(** [x or d] where [x : Optional[A]] and [d : A]. *)
Definition or_else {A} `{Truthy A} (x : option A) (d : A) : A :=
  match x with
  | Some a => if truthy a then a else d
  | None => d
  end.

(** A [dict] keeps its keys in insertion order; [d[k] = v] overwrites in
    place when [k] is present and appends otherwise. *)
Definition dict (V : Type) := list (string * V).

Fixpoint setitem {V} (k : string) (v : V) (d : dict V) : dict V :=
  match d with
  | [] => [(k, v)]
  | (k', v') :: d' =>
      if String.eqb k k' then (k, v) :: d' else (k', v') :: setitem k v d'
  end.

Fixpoint getitem {V} (k : string) (d : dict V) : option V :=
  match d with
  | [] => None
  | (k', v') :: d' => if String.eqb k k' then Some v' else getitem k d'
  end.

(** [{**d, **d'}] and [d.update(d')]: the items of [d'] are set in order. *)
Definition update {V} (d d' : dict V) : dict V :=
  foldl (fun acc kv => setitem (fst kv) (snd kv) acc) d d'.

(** [s * n] on strings; empty when [n <= 0]. *)
Fixpoint repeat_char (c : ascii) (n : nat) : string :=
  match n with
  | O => ""
  | S n' => String c (repeat_char c n')
  end.

Definition str_mul (c : ascii) (n : Z) : string := repeat_char c (Z.to_nat n).

(** [s[:n]] and [s[n:]] for [0 <= n]. *)
Fixpoint str_take (n : nat) (s : string) : string :=
  match n, s with
  | S n', String c s' => String c (str_take n' s')
  | _, _ => ""
  end.

Fixpoint str_drop (n : nat) (s : string) : string :=
  match n, s with
  | S n', String _ s' => str_drop n' s'
  | _, _ => s
  end.

Definition len (s : string) : Z := Z.of_nat (String.length s).

(** ["%d" % n], the decimal numeral of an integer. *)
Definition fmt_d (n : Z) : string := pretty n.

(** ["%+d" % n]: the sign is always printed. *)
Definition fmt_plus_d (n : Z) : string :=
  if (0 <=? n)%Z then "+" +:+ pretty n else pretty n.

(** ["%0wd" % n]: zero padding on the left up to width [w]; a numeral
    that is already as wide is left alone. *)
Definition zfill (w : nat) (s : string) : string :=
  repeat_char "0" (w - String.length s) +:+ s.

Definition fmt_0d (w : nat) (n : Z) : string :=
  if (0 <=? n)%Z then zfill w (pretty n)
  else "-" +:+ zfill (w - 1) (pretty (- n)%Z).

End Py.

Export Py.

(** ** [datetime] and [strftime] *)

Module Datetime.

(** A fixed-offset [tzinfo]: offset east of UTC in minutes, and a name. *)
Record tzinfo := { utcoffset : Z; tzname : string }.

Record datetime := {
  year : Z; month : Z; day : Z;
  hour : Z; minute : Z; second : Z; microsecond : Z;
  tz : option tzinfo
}.

(** [datetime] defines neither [__bool__] nor [__len__]: every instance
    is truthy. *)
#[export] Instance truthy_datetime : Truthy datetime := fun _ => true.

Definition is_leap (y : Z) : bool :=
  ((y mod 4 =? 0) && (negb (y mod 100 =? 0) || (y mod 400 =? 0)))%Z.

Definition days_in_month (y m : Z) : Z :=
  if (m =? 2)%Z then (if is_leap y then 29 else 28)%Z
  else if ((m =? 4) || (m =? 6) || (m =? 9) || (m =? 11))%Z then 30%Z
  else 31%Z.

(** The ranges the [datetime] constructor enforces ([MINYEAR = 1],
    [MAXYEAR = 9999]); every [datetime] object satisfies them. *)
Definition valid (d : datetime) : bool :=
  ((1 <=? year d) && (year d <=? 9999) &&
   (1 <=? month d) && (month d <=? 12) &&
   (1 <=? day d) && (day d <=? days_in_month (year d) (month d)) &&
   (0 <=? hour d) && (hour d <=? 23) &&
   (0 <=? minute d) && (minute d <=? 59) &&
   (0 <=? second d) && (second d <=? 59) &&
   (0 <=? microsecond d) && (microsecond d <=? 999999))%Z.

(** [strftime] hands the numeric directives to the C library, and C
    libraries differ on [%Y] for a year below 1000: glibc prints the year
    as it is ([1], [999]), others pad it to four digits ([0001], [0999]).
    [pads_year] says which. *)
Class CLibrary := { pads_year : bool }.

(** [%z]: [+HHMM] or [-HHMM], empty for a naive object. *)
Definition fmt_offset (d : datetime) : string :=
  match tz d with
  | None => ""
  | Some t =>
      let o := utcoffset t in
      let a := Z.abs o in
      (if (o <? 0)%Z then "-" else "+")
        +:+ fmt_0d 2 (a / 60) +:+ fmt_0d 2 (a mod 60)
  end.

(** [%Z]: the zone name, empty for a naive object. *)
Definition fmt_tzname (d : datetime) : string :=
  match tz d with
  | None => ""
  | Some t => tzname t
  end.

(** One conversion specification.  [%m], [%d], [%H], [%M] and [%S] are
    zero-padded to two digits and [%f] to six; [%Y] is the year, padded
    to four digits where the C library does so.  Only these and the two
    zone directives are interpreted; any other character after [%] is
    copied with its [%]. *)
Definition directive {libc : CLibrary} (c : ascii) (d : datetime) : string :=
  if Ascii.eqb c "Y" then
    (if pads_year then fmt_0d 4 (year d) else fmt_d (year d))
  else if Ascii.eqb c "m" then fmt_0d 2 (month d)
  else if Ascii.eqb c "d" then fmt_0d 2 (day d)
  else if Ascii.eqb c "H" then fmt_0d 2 (hour d)
  else if Ascii.eqb c "M" then fmt_0d 2 (minute d)
  else if Ascii.eqb c "S" then fmt_0d 2 (second d)
  else if Ascii.eqb c "f" then fmt_0d 6 (microsecond d)
  else if Ascii.eqb c "z" then fmt_offset d
  else if Ascii.eqb c "Z" then fmt_tzname d
  else if Ascii.eqb c "%" then "%"
  else String "%" (String c "").

(** [datetime.strftime(d, fmt)]: ordinary characters are copied, [%x] is
    replaced by the field it names. *)
Fixpoint strftime {libc : CLibrary} (d : datetime) (fmt : string) : string :=
  match fmt with
  | "" => ""
  | String "%" (String c rest) => directive c d +:+ strftime d rest
  | String c rest => String c (strftime d rest)
  end.

End Datetime.

Export Datetime.

(** ** [Decimal] and its [str] *)

Module PyDecimal.

(** [_exp] is an [int] for a finite number and one of the letters
    ['F'], ['n'], ['N'] for an infinity, a quiet or a signalling NaN. *)
Inductive exponent :=
| Finite (e : Z)
| Infinity
| QNaN
| SNaN.

(** [Decimal] as [_pydecimal] stores it: sign bit, coefficient as a
    string of decimal digits, exponent.  [Decimal("12.50")] is
    [(0, "1250", -2)]: the trailing zero is part of the value. *)
Record Decimal := { _sign : bool; _int : string; _exp : exponent }.

(** The decimal context of the calling thread, of which [str] reads one
    field: [capitals], 1 by default. *)
Class DecimalContext := { capitals : bool }.

(** [Decimal.__str__] ([eng=False]); the exponent letter is
    [['e', 'E'][context.capitals]]. *)
Definition __str__ {ctx : DecimalContext} (self : Decimal) : string :=
  let sign := if _sign self then "-" else "" in
  match _exp self with
  | Infinity => sign +:+ "Infinity"
  | QNaN => sign +:+ "NaN" +:+ _int self
  | SNaN => sign +:+ "sNaN" +:+ _int self
  | Finite e =>
      let leftdigits := (e + len (_int self))%Z in
      let dotplace :=
        if ((e <=? 0) && (-6 <? leftdigits))%Z then leftdigits else 1%Z in
      let '(intpart, fracpart) :=
        if (dotplace <=? 0)%Z then
          ("0", "." +:+ str_mul "0" (- dotplace) +:+ _int self)
        else if (len (_int self) <=? dotplace)%Z then
          (_int self +:+ str_mul "0" (dotplace - len (_int self)), "")
        else
          (str_take (Z.to_nat dotplace) (_int self),
           "." +:+ str_drop (Z.to_nat dotplace) (_int self)) in
      let exp :=
        if (leftdigits =? dotplace)%Z then ""
        else (if capitals then "E" else "e")
             +:+ fmt_plus_d (leftdigits - dotplace) in
      sign +:+ intpart +:+ fracpart +:+ exp
  end.

(** The [amount] argument of [create_transfer]: [Union[Decimal, str]]. *)
Inductive amount :=
| OfDecimal (d : Decimal)
| OfStr (s : string).

(** [str(amount)]: a [str] is returned as it is. *)
Definition str {ctx : DecimalContext} (a : amount) : string :=
  match a with
  | OfDecimal d => __str__ d
  | OfStr s => s
  end.

End PyDecimal.

Export PyDecimal.

(** ** The [requests] session *)

Module Urllib3.

(** [urllib3.util.Retry], with the arguments the client sets. *)
Record Retry := {
  total : Z;
  backoff_factor : spec_float;
  redirect : Z;
  allowed_methods : gset string;
  raise_on_status : bool
}.

End Urllib3.

Module Requests.

(** [requests.adapters.HTTPAdapter]: the pool sizes, the retry policy and
    whether [close] has cleared its pool manager. *)
Record HTTPAdapter := {
  pool_connections : Z;
  pool_maxsize : Z;
  max_retries : Urllib3.Retry;
  pool_cleared : bool
}.

Definition new_adapter (pool_connections pool_maxsize : Z)
    (max_retries : Urllib3.Retry) : HTTPAdapter :=
  {| pool_connections := pool_connections; pool_maxsize := pool_maxsize;
     max_retries := max_retries; pool_cleared := false |}.

(** [HTTPAdapter.close]: the pool manager is cleared. *)
Definition adapter_close (a : HTTPAdapter) : HTTPAdapter :=
  {| pool_connections := pool_connections a;
     pool_maxsize := pool_maxsize a;
     max_retries := max_retries a;
     pool_cleared := true |}.

(** ASCII lower-casing, the key normalisation of [CaseInsensitiveDict]. *)
Definition lower_char (c : ascii) : ascii :=
  let n := nat_of_ascii c in
  if (65 <=? n)%nat && (n <=? 90)%nat then ascii_of_nat (n + 32) else c.

Fixpoint lower (s : string) : string :=
  match s with
  | "" => ""
  | String c s' => String (lower_char c) (lower s')
  end.

(** [CaseInsensitiveDict]: the store is keyed by the lower-cased name and
    keeps the name as last written next to the value. *)
Abbreviation headers_dict := (gmap string (string * string)).

Definition header_set (k v : string) (h : headers_dict) : headers_dict :=
  <[lower k := (k, v)]> h.

Definition header_get (k : string) (h : headers_dict) : option string :=
  snd <$> h !! lower k.

(** [headers.update(d)]: the items of [d], in order. *)
Definition headers_update (d : dict string) (h : headers_dict) : headers_dict :=
  foldl (fun acc kv => header_set (fst kv) (snd kv) acc) h d.

(** A [Session]: default headers and the adapters mounted per URL
    prefix.  Each session holds its adapters; one adapter object mounted
    on two sessions is not modelled (the client mounts a new adapter on
    every session it makes). *)
Record Session := {
  headers : headers_dict;
  adapters : gmap string HTTPAdapter
}.

(** [Session.mount(prefix, adapter)]. *)
Definition session_mount (prefix : string) (a : HTTPAdapter) (s : Session) : Session :=
  {| headers := headers s; adapters := <[prefix := a]> (adapters s) |}.

Definition session_headers_update (d : dict string) (s : Session) : Session :=
  {| headers := headers_update d (headers s); adapters := adapters s |}.

(** [Session.close()]: every mounted adapter is closed. *)
Definition session_close (s : Session) : Session :=
  {| headers := headers s; adapters := adapter_close <$> adapters s |}.

(** JSON documents, for request bodies and parsed responses. *)
#[warnings="-register-all"] Inductive json :=
| JNull
| JBool (b : bool)
| JInt (z : Z)
| JStr (s : string)
| JArr (items : list json)
| JObj (fields : list (string * json)).

(** One call of [Session.get] or [Session.post]: what the client passes. *)
Record request := {
  req_method : string;
  req_url : string;
  req_params : dict value;
  req_json : option json;
  req_timeout : option number
}.

(** What comes back: a status and, when the body parses, its JSON. *)
Record response := { status_code : Z; body : option json }.

(** The exceptions [requests] raises for an exchange that produced no
    response, retries included. *)
Inductive failure :=
| ConnectionError
| Timeout
| RetryError
| TooManyRedirects.

(** The exceptions of the model.  [JSONDecodeError], raised by
    [Response.json()], is kept apart from the [ValueError] the client
    itself raises, although Python derives the former from the latter:
    the parameter-conflict error is the [ValueError] with the client's
    message. *)
Inductive exn :=
| ValueError (msg : string)
| RequestException (f : failure)
| JSONDecodeError
| Exception (name : string).

(** Sessions live in a store and are held by reference. *)
Abbreviation ref := nat (only parsing).

Record world := {
  sessions : gmap nat Session;
  wire : list (nat * request)
}.

Inductive result (A : Type) :=
| Ok (a : A)
| Raise (e : exn).

Arguments Ok {A} a.
Arguments Raise {A} e.

(** Computations: the store and the wire are threaded, an exception
    ends the computation with the state reached so far. *)
Definition M (A : Type) : Type := world -> result A * world.

Definition ret {A} (a : A) : M A := fun w => (Ok a, w).

Definition raise {A} (e : exn) : M A := fun w => (Raise e, w).

Definition bind {A B} (m : M A) (k : A -> M B) : M B :=
  fun w =>
    match m w with
    | (Ok a, w') => k a w'
    | (Raise e, w') => (Raise e, w')
    end.

Definition modify_session (l : ref) (f : Session -> Session) : M unit :=
  fun w => (Ok tt, {| sessions := alter f l (sessions w); wire := wire w |}).

Definition close (l : ref) : M unit := modify_session l session_close.

(** [Response.json()]. *)
Definition response_json (r : response) : M json :=
  match body r with
  | Some j => ret j
  | None => raise JSONDecodeError
  end.

End Requests.

Export Requests.

Declare Scope py_scope.
Delimit Scope py_scope with py.
Notation "x <- c ;; k" := (bind c (fun x => k))
  (at level 100, c at next level, right associativity) : py_scope.
Notation "c ;;; k" := (bind c (fun _ => k))
  (at level 100, right associativity) : py_scope.
Local Open Scope py_scope.

(** ** The client *)

Definition DEFAULT_NUM_RETRIES : Z := 3.
(** [0.5] as a binary64 value. *)
Definition DEFAULT_BACKOFF_FACTOR : spec_float :=
  S754_finite false 4503599627370496 (-53).
Definition DEFAULT_TIMEOUT : number := PyInt 10.
Definition IDENTIFICATION_HEADERS : dict string :=
  [("User-Agent", "django-polaris-circle/CircleClient");
   ("X-Client-Name", "django-polaris-circle")].
Definition CIRCLE_DATETIME_FORMAT : string := "%Y-%m-%dT%H:%M:%S.%fZ".

Record CircleClient := {
  api_key : string;
  url : string;
  wallet_id : string;
  timeout : option number;
  pool_size : Z;
  num_retries : Z;
  backoff_factor : spec_float;
  _session : nat
}.

(** [if x: ... else: ...] on an optional argument, with the value at hand
    in the true branch. *)
Definition if_truthy {A B} `{Truthy A} (x : option A)
    (then_ : A -> B) (else_ : B) : B :=
  match x with
  | Some a => if truthy a then then_ a else else_
  | None => else_
  end.

Definition conflict_message : string :=
  "'wallet_id' cannot be specified with " +:+
  "'destination_wallet_id' or 'source_wallet_id'".

Section Client.

(** The C library and the decimal context the client runs with. *)
Context {libc : CLibrary} {ctx : DecimalContext}.

(** What [Session()] builds: the library's default headers and adapters. *)
Variable default_session : Session.

(** The remote service together with the transport below the session:
    given the state at the time of the call, the session used and the
    request, either no response could be obtained or one is returned. *)
Variable remote : world -> nat -> request -> failure + response.

(** [Session()]: a new object in the store. *)
Definition Session_new : M nat :=
  fun w =>
    let l := fresh (dom (sessions w)) in
    (Ok l, {| sessions := <[l := default_session]> (sessions w);
              wire := wire w |}).

(** The request goes on the wire whatever the outcome. *)
Definition send (l : nat) (r : request) : M response :=
  fun w =>
    let w' := {| sessions := sessions w; wire := wire w ++ [(l, r)] |} in
    match remote w l r with
    | inl f => (Raise (RequestException f), w')
    | inr resp => (Ok resp, w')
    end.

(** [session.get(url, params=..., timeout=...)]. *)
Definition session_get (l : nat) (u : string) (params : dict value)
    (t : option number) : M response :=
  send l {| req_method := "GET"; req_url := u; req_params := params;
            req_json := None; req_timeout := t |}.

(** [session.post(url, json=..., timeout=...)]. *)
Definition session_post (l : nat) (u : string) (j : json)
    (t : option number) : M response :=
  send l {| req_method := "POST"; req_url := u; req_params := [];
            req_json := Some j; req_timeout := t |}.

Definition __init__ (api_key api_url wallet_id : string)
    (timeout : option number) (pool_size : Z) (backoff_factor : spec_float)
    (num_retries : Z) (session : option nat) : M CircleClient :=
  let retry :=
    {| Urllib3.total := num_retries;
       Urllib3.backoff_factor := backoff_factor;
       Urllib3.redirect := 0;
       Urllib3.allowed_methods := {["GET"; "POST"]};
       Urllib3.raise_on_status := false |} in
  let adapter := new_adapter pool_size pool_size retry in
  let headers :=
    update [("Authorization", "Bearer " +:+ api_key);
            ("Accept", "application/json");
            ("Content-Type", "application/json")]
           IDENTIFICATION_HEADERS in
  session <-
    match session with
    | None =>
        session <- Session_new ;;
        modify_session session (session_headers_update headers) ;;;
        modify_session session (session_mount "http://" adapter) ;;;
        modify_session session (session_mount "https://" adapter) ;;;
        ret session
    | Some session => ret session
    end ;;
  ret {| api_key := api_key; url := api_url; wallet_id := wallet_id;
         timeout := timeout; pool_size := pool_size;
         num_retries := num_retries; backoff_factor := backoff_factor;
         _session := session |}.

Definition get_transfers (self : CircleClient)
    (from_datetime to_datetime : option datetime) (page_size : option Z)
    (wallet_id destination_wallet_id source_wallet_id : option string)
    : M json :=
  let request_args : dict value := [] in
  let request_args :=
    if_truthy from_datetime
      (fun d => setitem "from" (VStr (strftime d CIRCLE_DATETIME_FORMAT))
                  request_args)
      request_args in
  let request_args :=
    if_truthy to_datetime
      (fun d => setitem "to" (VStr (strftime d CIRCLE_DATETIME_FORMAT))
                  request_args)
      request_args in
  request_args <-
    if_truthy wallet_id
      (fun w =>
         if truthy destination_wallet_id || truthy source_wallet_id
         then raise (ValueError conflict_message)
         else ret (setitem "walletId" (VStr w) request_args))
      (ret request_args) ;;
  let request_args :=
    if_truthy destination_wallet_id
      (fun w => setitem "destinationWalletId" (VStr w) request_args)
      request_args in
  let request_args :=
    if_truthy source_wallet_id
      (fun w => setitem "sourceWalletId" (VStr w) request_args)
      request_args in
  let request_args :=
    if_truthy page_size
      (fun n => setitem "pageSize" (VInt n) request_args)
      request_args in
  r <- session_get (_session self) (url self +:+ "/transfers")
         request_args (timeout self) ;;
  response_json r.

Definition get_transfer (self : CircleClient) (transfer_id : string) : M json :=
  r <- session_get (_session self)
         (url self +:+ "/transfers/" +:+ transfer_id) [] (timeout self) ;;
  response_json r.

Definition create_transfer (self : CircleClient)
    (idempotency_key account : string) (amount : amount)
    (memo : option string) : M json :=
  r <- session_post (_session self) (url self +:+ "/transfers")
         (JObj
            [("idempotencyKey", JStr idempotency_key);
             ("source",
              JObj [("type", JStr "wallet"); ("id", JStr (wallet_id self))]);
             ("destination",
              JObj [("type", JStr "blockchain");
                    ("address", JStr account);
                    ("chain", JStr "XLM");
                    ("addressTag", JStr (or_else memo ""))]);
             ("amount",
              JObj [("amount", JStr (str amount));
                    ("currency", JStr "USD")])])
         (timeout self) ;;
  response_json r.

Definition get_wallet (self : CircleClient) : M json :=
  let optional_kwargs : dict number := [] in
  let optional_kwargs :=
    if_truthy (timeout self)
      (fun t => setitem "timeout" t optional_kwargs) optional_kwargs in
  r <- session_get (_session self)
         (url self +:+ "/wallets/" +:+ wallet_id self) [] (timeout self) ;;
  response_json r.

Definition create_address (self : CircleClient) (idempotency_key : string)
    : M json :=
  let optional_kwargs : dict number := [] in
  let optional_kwargs :=
    if_truthy (timeout self)
      (fun t => setitem "timeout" t optional_kwargs) optional_kwargs in
  r <- session_post (_session self)
         (url self +:+ "/wallets/" +:+ wallet_id self +:+ "/addresses")
         (JObj [("idempotencyKey", JStr idempotency_key);
                ("currency", JStr "USD");
                ("chain", JStr "XLM")])
         (timeout self) ;;
  response_json r.

End Client.

(** [CircleClient.close]. *)
Definition client_close (self : CircleClient) : M unit :=
  close (_session self).

Definition __enter__ (self : CircleClient) : M CircleClient := ret self.

(** [__exit__(self, *args)]: the exception details are ignored and [None]
    is returned, so an exception in flight is not suppressed. *)
Definition __exit__ (self : CircleClient) (args : option exn) : M (option bool) :=
  client_close self ;;; ret None.

(** [with mgr as c: body]: [__exit__] runs when the body returns and when
    it raises; the exception is re-raised unless [__exit__] returns a true
    value, in which case the statement completes without a value. *)
Definition with_ {A} (mgr : CircleClient) (body : CircleClient -> M A)
    : M (option A) :=
  c <- __enter__ mgr ;;
  fun w =>
    match body c w with
    | (Ok a, w') =>
        (_ <- __exit__ mgr None ;; ret (Some a)) w'
    | (Raise e, w') =>
        (suppress <- __exit__ mgr (Some e) ;;
         if truthy suppress then ret None else raise e) w'
    end.

(** ** Specification-side definitions *)

(** The item one filter contributes to the query string: nothing when the
    argument is falsy. *)
Definition query_item {A} `{Truthy A} (k : string) (f : A -> value)
    (x : option A) : dict value :=
  if_truthy x (fun a => [(k, f a)]) [].

(** The query of a list-transfers call that passes validation. *)
Definition expected_query {libc : CLibrary}
    (from_datetime to_datetime : option datetime)
    (page_size : option Z)
    (wallet_id destination_wallet_id source_wallet_id : option string)
    : dict value :=
  (query_item "from" (fun d => VStr (strftime d CIRCLE_DATETIME_FORMAT))
     from_datetime
   ++ query_item "to" (fun d => VStr (strftime d CIRCLE_DATETIME_FORMAT))
        to_datetime
   ++ query_item "walletId" VStr wallet_id
   ++ query_item "destinationWalletId" VStr destination_wallet_id
   ++ query_item "sourceWalletId" VStr source_wallet_id
   ++ query_item "pageSize" VInt page_size)%list.

(** The filters clash: a truthy [wallet_id] next to a truthy
    [destination_wallet_id] or [source_wallet_id]. *)
Definition conflicting (wallet_id destination_wallet_id source_wallet_id
    : option string) : bool :=
  truthy wallet_id && (truthy destination_wallet_id || truthy source_wallet_id).

(** The requests a computation puts on the wire when started in [w]. *)
Definition issued {A} (m : M A) (w : world) : list (nat * request) :=
  drop (List.length (wire w)) (wire (snd (m w))).

(** The character of a decimal digit [0..9]. *)
Definition digit (z : Z) : ascii := ascii_of_nat (48 + Z.to_nat z).

(** The [w] low decimal digits of [n], most significant first. *)
Fixpoint fixed_width (w : nat) (n : Z) : string :=
  match w with
  | O => ""
  | S w' => String (digit (n / 10 ^ Z.of_nat w' mod 10)) (fixed_width w' n)
  end.

(** The wire format of a timestamp, [YYYY-MM-DDTHH:MM:SS.ffffffZ]: every
    letter is one decimal digit of the field it stands for. *)
Definition circle_timestamp (d : datetime) : string :=
  fixed_width 4 (year d) +:+ "-" +:+ fixed_width 2 (month d) +:+ "-"
  +:+ fixed_width 2 (day d) +:+ "T" +:+ fixed_width 2 (hour d) +:+ ":"
  +:+ fixed_width 2 (minute d) +:+ ":" +:+ fixed_width 2 (second d) +:+ "."
  +:+ fixed_width 6 (microsecond d) +:+ "Z".

(** [d.replace(tzinfo=t)]: the same wall-clock fields under another zone. *)
Definition replace_tzinfo (d : datetime) (t : option tzinfo) : datetime :=
  {| year := year d; month := month d; day := day d; hour := hour d;
     minute := minute d; second := second d; microsecond := microsecond d;
     tz := t |}.

(** *** Reading a numeral back

    [str] of a [Decimal] loses nothing: the definitions below read the
    printed form back, following the grammar of the [Decimal] constructor
    (sign, digits, point, digits, exponent after [E] or [e]; [Infinity];
    [NaN] and [sNaN] with a payload). *)

Definition is_digit (c : ascii) : bool :=
  let n := nat_of_ascii c in (48 <=? n)%nat && (n <=? 57)%nat.

Fixpoint all_digits (s : string) : bool :=
  match s with
  | "" => true
  | String c s' => is_digit c && all_digits s'
  end.

(** The longest prefix of digits, and what follows it. *)
Fixpoint span_digits (s : string) : string * string :=
  match s with
  | "" => ("", "")
  | String c s' =>
      if is_digit c
      then (String c (fst (span_digits s')), snd (span_digits s'))
      else ("", s)
  end.

Fixpoint lstrip_zeros (s : string) : string :=
  match s with
  | "" => ""
  | String c s' => if Ascii.eqb c "0" then lstrip_zeros s' else s
  end.

(** [str(int(s))] for a string of digits. *)
Definition canonical (s : string) : string :=
  match lstrip_zeros s with
  | "" => "0"
  | t => t
  end.

Fixpoint digits_value (acc : Z) (s : string) : Z :=
  match s with
  | "" => acc
  | String c s' =>
      digits_value (10 * acc + (Z.of_nat (nat_of_ascii c) - 48))%Z s'
  end.

(** An optional sign in front of the rest. *)
Definition read_sign (s : string) : bool * string :=
  match s with
  | "" => (false, s)
  | String c r =>
      if Ascii.eqb c "-" then (true, r)
      else if Ascii.eqb c "+" then (false, r)
      else (false, s)
  end.

(** [int(s)] for an optionally signed string of digits. *)
Definition read_int (s : string) : option Z :=
  let ds := snd (read_sign s) in
  if all_digits ds && negb (String.eqb ds "") then
    Some (if fst (read_sign s) then (- digits_value 0 ds)%Z
          else digits_value 0 ds)
  else None.

Fixpoint strip_prefix (p s : string) : option string :=
  match p, s with
  | "", _ => Some s
  | String a p', String b s' =>
      if Ascii.eqb a b then strip_prefix p' s' else None
  | String _ _, "" => None
  end.

Definition read_finite (sign : bool) (s : string) : option Decimal :=
  let ip := fst (span_digits s) in
  let s2 := snd (span_digits s) in
  let fp := match strip_prefix "." s2 with
            | Some r => fst (span_digits r)
            | None => ""
            end in
  let s3 := match strip_prefix "." s2 with
            | Some r => snd (span_digits r)
            | None => s2
            end in
  if String.eqb (ip +:+ fp) "" then None
  else if String.eqb s3 "" then
    Some {| _sign := sign; _int := canonical (ip +:+ fp);
            _exp := Finite (- len fp) |}
  else
    match
      match strip_prefix "E" s3 with
      | Some r => Some r
      | None => strip_prefix "e" s3
      end
    with
    | Some r =>
        match read_int r with
        | Some e =>
            Some {| _sign := sign; _int := canonical (ip +:+ fp);
                    _exp := Finite (e - len fp) |}
        | None => None
        end
    | None => None
    end.

Definition read_decimal (s : string) : option Decimal :=
  let sign := fst (read_sign s) in
  let s1 := snd (read_sign s) in
  if String.eqb s1 "Infinity" then
    Some {| _sign := sign; _int := "0"; _exp := Infinity |}
  else
    match strip_prefix "NaN" s1 with
    | Some diag =>
        if all_digits diag
        then Some {| _sign := sign; _int := lstrip_zeros diag; _exp := QNaN |}
        else None
    | None =>
        match strip_prefix "sNaN" s1 with
        | Some diag =>
            if all_digits diag
            then Some {| _sign := sign; _int := lstrip_zeros diag; _exp := SNaN |}
            else None
        | None => read_finite sign s1
        end
    end.

(** The coefficients a [Decimal] object can hold: digits only; no leading
    zero on a finite number other than zero itself; ["0"] for an infinity;
    a payload without leading zeros for a NaN. *)
Definition well_formed (d : Decimal) : bool :=
  all_digits (_int d) &&
  match _exp d with
  | Finite _ => String.eqb (canonical (_int d)) (_int d)
  | Infinity => String.eqb (_int d) "0"
  | QNaN | SNaN => String.eqb (lstrip_zeros (_int d)) (_int d)
  end.

(** The shape of a printed finite number: sign, integer digits, an
    optional fraction and an optional exponent. *)
Definition numeral {ctx : DecimalContext} (sign : bool) (ip : string)
    (fp : option string) (e : option Z) : string :=
  (if sign then "-" else "")
  +:+ ip
  +:+ match fp with Some f => "." +:+ f | None => "" end
  +:+ match e with
      | Some n => (if capitals then "E" else "e") +:+ fmt_plus_d n
      | None => ""
      end.

(** [Decimal("12.50")]. *)
Definition twelve_fifty : Decimal :=
  {| _sign := false; _int := "1250"; _exp := Finite (-2) |}.



(** A zone five hours east of UTC and 08:30 on its wall clock. *)
Definition tz_plus5 : tzinfo := {| utcoffset := 300; tzname := "UTC+05:00" |}.

Definition morning : datetime :=
  {| year := 2023; month := 1; day := 15; hour := 8; minute := 30;
     second := 0; microsecond := 0; tz := None |}.

(** An argument as the operation sees it: a falsy value counts as [None]. *)
Definition absent_if_falsy {A} `{Truthy A} (x : option A) : option A :=
  if truthy x then x else None.

(** [j[k]] on a JSON object. *)
Definition field (k : string) (j : json) : option json :=
  match j with
  | JObj fields => getitem k fields
  | _ => None
  end.

(** The retry policy and the adapter the constructor builds. *)
Definition client_retry (num_retries : Z) (backoff_factor : spec_float)
    : Urllib3.Retry :=
  {| Urllib3.total := num_retries;
     Urllib3.backoff_factor := backoff_factor;
     Urllib3.redirect := 0;
     Urllib3.allowed_methods := {["GET"; "POST"]};
     Urllib3.raise_on_status := false |}.

Definition client_adapter (pool_size num_retries : Z)
    (backoff_factor : spec_float) : HTTPAdapter :=
  {| pool_connections := pool_size; pool_maxsize := pool_size;
     max_retries := client_retry num_retries backoff_factor;
     pool_cleared := false |}.

(** *** Outcomes and frames *)

(** What an operation makes of the answer to its request: a transport
    failure and an unparseable body are raised, a parsed body is returned,
    whatever the status of the response. *)
Definition outcome (o : failure + response) : result json :=
  match o with
  | inl f => Raise (RequestException f)
  | inr resp =>
      match body resp with
      | Some j => Ok j
      | None => Raise JSONDecodeError
      end
  end.

(** The computation [m], started in [w], sends the one request [r] on the
    session of [self], returns what the remote answers to it and leaves
    the store alone. *)
Definition relays (remote : world -> nat -> request -> failure + response)
    (self : CircleClient) (m : M json) (w : world) (r : request) : Prop :=
  m w = (outcome (remote w (_session self) r),
         {| sessions := sessions w;
            wire := (wire w ++ [(_session self, r)])%list |}).

(** The names of the six query parameters of a list-transfers call. *)
Definition query_keys : list string :=
  ["from"; "to"; "walletId"; "destinationWalletId"; "sourceWalletId";
   "pageSize"].

(** The header a client with key [api_key] sets for the name [k], names
    compared without regard to case. *)
Definition client_header (api_key k : string) : option string :=
  if String.eqb (lower k) "authorization" then Some ("Bearer " +:+ api_key)
  else if String.eqb (lower k) "accept" then Some "application/json"
  else if String.eqb (lower k) "content-type" then Some "application/json"
  else if String.eqb (lower k) "user-agent"
       then Some "django-polaris-circle/CircleClient"
  else if String.eqb (lower k) "x-client-name"
       then Some "django-polaris-circle"
  else None.

(** [c in s]. *)
Fixpoint contains (c : ascii) (s : string) : bool :=
  match s with
  | "" => false
  | String x s' => Ascii.eqb x c || contains c s'
  end.

(** The wall-clock fields of a [datetime], its zone left out. *)
Definition wall_clock (d : datetime) : list Z :=
  [year d; month d; day d; hour d; minute d; second d; microsecond d].

(** The session the constructor makes of a new one: headers updated,
    the adapter mounted for both schemes. *)
Definition configured_session (new : Session) (api_key : string)
    (pool_size num_retries : Z) (backoff_factor : spec_float) : Session :=
  let adapter := client_adapter pool_size num_retries backoff_factor in
  session_mount "https://" adapter
    (session_mount "http://" adapter
       (session_headers_update
          (update [("Authorization", "Bearer " +:+ api_key);
                   ("Accept", "application/json");
                   ("Content-Type", "application/json")]
                  IDENTIFICATION_HEADERS)
          new)).

(** The client the constructor returns for a session reference. *)
Definition client_of (api_key api_url wallet_id : string)
    (timeout : option number) (pool_size : Z) (backoff_factor : spec_float)
    (num_retries : Z) (session : nat) : CircleClient :=
  {| api_key := api_key; url := api_url; wallet_id := wallet_id;
     timeout := timeout; pool_size := pool_size;
     num_retries := num_retries; backoff_factor := backoff_factor;
     _session := session |}.

(** ** Sample inputs *)

(** The C library of a Linux system, and one that pads the year. *)
Definition glibc : CLibrary := {| pads_year := false |}.
Definition padding_libc : CLibrary := {| pads_year := true |}.

(** The default decimal context, and one that asks for a small [e]. *)
Definition default_context : DecimalContext := {| capitals := true |}.
Definition lowercase_context : DecimalContext := {| capitals := false |}.


(** A service that answers every request with status 200 and body [null]. *)
Definition remote_ok : world -> nat -> request -> failure + response :=
  fun _ _ _ => inr {| status_code := 200; body := Some JNull |}.


Definition empty_session : Session := {| headers := ∅; adapters := ∅ |}.

Definition world0 : world := {| sessions := {[ 0 := empty_session ]}; wire := [] |}.

Definition client0 : CircleClient :=
  {| api_key := "key"; url := "https://api.example"; wallet_id := "1000";
     timeout := Some DEFAULT_TIMEOUT; pool_size := 10;
     num_retries := DEFAULT_NUM_RETRIES;
     backoff_factor := DEFAULT_BACKOFF_FACTOR; _session := 0 |}.

(** ** Running computations *)

Section Run.

Context {A B : Type}.

Lemma bind_ok (m : M A) (k : A -> M B) w a w' :
  m w = (Ok a, w') -> bind m k w = k a w'.
Proof. unfold bind. intros ->. reflexivity. Qed.

Lemma bind_raise (m : M A) (k : A -> M B) w e w' :
  m w = (Raise e, w') -> bind m k w = (Raise e, w').
Proof. unfold bind. intros ->. reflexivity. Qed.

Lemma bind_ret (a : A) (k : A -> M B) w : bind (ret a) k w = k a w.
Proof. reflexivity. Qed.

End Run.

Lemma issued_append {A} (m : M A) w evs :
  wire (snd (m w)) = (wire w ++ evs)%list -> issued m w = evs.
Proof. unfold issued. intros ->. apply drop_app_length. Qed.

Lemma issued_same {A} (m : M A) w :
  snd (m w) = w -> issued m w = [].
Proof. unfold issued. intros ->. apply drop_all. Qed.

Section Operations.

Context {libc : CLibrary} {ctx : DecimalContext}.
Variable remote : world -> nat -> request -> failure + response.

(** What a request and the parsing of its answer leave behind: the
    request on the wire, the store as it was. *)
Lemma send_json_world l r w :
  snd ((x <- send remote l r ;; response_json x) w)
  = {| sessions := sessions w; wire := wire w ++ [(l, r)] |}.
Proof.
  unfold bind, send. destruct (remote w l r) as [f|resp]; simpl; [done|].
  unfold response_json. destruct (body resp); reflexivity.
Qed.

(** The answer is a transport failure, a decoding failure or the parsed
    body; it is never a [ValueError]. *)
Lemma send_json_result l r w :
  fst ((x <- send remote l r ;; response_json x) w)
  = match remote w l r with
    | inl f => Raise (RequestException f)
    | inr resp =>
        match body resp with Some j => Ok j | None => Raise JSONDecodeError end
    end.
Proof.
  unfold bind, send. destruct (remote w l r) as [f|resp]; simpl; [done|].
  unfold response_json. destruct (body resp); reflexivity.
Qed.

Lemma send_json_not_value_error l r w msg :
  fst ((x <- send remote l r ;; response_json x) w) <> Raise (ValueError msg).
Proof.
  rewrite send_json_result. destruct (remote w l r) as [f|resp]; [done|].
  destruct (body resp); done.
Qed.

(** A call whose filters clash stops at the check. *)
Lemma get_transfers_clash self fd td ps wl dst src w :
  conflicting wl dst src = true ->
  get_transfers remote self fd td ps wl dst src w
  = (Raise (ValueError conflict_message), w).
Proof.
  unfold conflicting, get_transfers. intros Hc.
  apply andb_prop in Hc as [Hw Hds].
  destruct wl as [[|c wl]|]; try discriminate Hw.
  unfold bind, if_truthy at 3. cbn [truthy truthy_str].
  rewrite Hds. reflexivity.
Qed.

(** A call whose filters do not clash is one GET of [/transfers] with the
    truthy filters, in the order the source sets them. *)
Lemma get_transfers_pass self fd td ps wl dst src :
  conflicting wl dst src = false ->
  get_transfers remote self fd td ps wl dst src
  = (r <- session_get remote (_session self) (url self +:+ "/transfers")
           (expected_query fd td ps wl dst src) (timeout self) ;;
     response_json r).
Proof.
  unfold conflicting, get_transfers, expected_query, query_item, if_truthy.
  intros Hc.
  destruct fd as [fd|], td as [td|]; cbn [truthy truthy_datetime];
    destruct wl as [[|c1 wl]|], dst as [[|c2 dst]|], src as [[|c3 src]|];
    try discriminate Hc;
    destruct ps as [ps|]; try destruct (truthy ps); reflexivity.
Qed.

(** C1 (amended): a call in which a truthy (non-empty) wallet filter
    comes with a truthy source or destination wallet filter raises the
    parameter-conflict [ValueError]; nothing is put on the wire and the
    state is the one the call started in. *)
Theorem get_transfers_conflict_raises self fd td ps wl dst src w :
  truthy wl = true ->
  truthy dst || truthy src = true ->
  get_transfers remote self fd td ps wl dst src w
    = (Raise (ValueError conflict_message), w)
  /\ issued (get_transfers remote self fd td ps wl dst src) w = [].
Proof.
  intros Hw Hds.
  assert (Hc : conflicting wl dst src = true).
  { unfold conflicting. rewrite Hw, Hds. reflexivity. }
  split.
  - apply get_transfers_clash, Hc.
  - apply issued_same. rewrite get_transfers_clash by exact Hc. reflexivity.
Qed.

(** The two outcomes of a list-transfers call in one equation. *)
Lemma get_transfers_cases self fd td ps wl dst src w :
  get_transfers remote self fd td ps wl dst src w
  = if conflicting wl dst src
    then (Raise (ValueError conflict_message), w)
    else (r <- session_get remote (_session self) (url self +:+ "/transfers")
                 (expected_query fd td ps wl dst src) (timeout self) ;;
          response_json r) w.
Proof.
  destruct (conflicting wl dst src) eqn:Hc.
  - apply get_transfers_clash, Hc.
  - rewrite get_transfers_pass by exact Hc. reflexivity.
Qed.

Lemma query_item_absent {A} `{Truthy A} k (f : A -> value) (x : option A) :
  query_item k f (absent_if_falsy x) = query_item k f x.
Proof.
  unfold query_item, absent_if_falsy, if_truthy.
  destruct x as [a|]; cbn; [|reflexivity].
  destruct (truthy a) eqn:Ha; cbn; rewrite ?Ha; reflexivity.
Qed.

Lemma truthy_absent {A} `{Truthy A} (x : option A) :
  truthy (absent_if_falsy x) = truthy x.
Proof.
  unfold absent_if_falsy. destruct (truthy x) eqn:Hx; [exact Hx|reflexivity].
Qed.

(** C9: every falsy argument of [get_transfers] counts as absent: the
    call behaves as the one in which an empty [wallet_id],
    [destination_wallet_id] or [source_wallet_id] and a [page_size] of 0
    are [None], and such an argument adds nothing to the query; the
    parameter-conflict error is raised exactly when [wallet_id] is truthy
    and one of the two other wallet filters is; with [wallet_id] the
    empty string no source or destination filter raises it, and the
    request goes out. *)
Theorem get_transfers_falsy_absent self fd td ps wl dst src w :
  get_transfers remote self fd td ps wl dst src w
    = get_transfers remote self fd td (absent_if_falsy ps)
        (absent_if_falsy wl) (absent_if_falsy dst) (absent_if_falsy src) w
  /\ (forall k, query_item k VStr (Some "") = []
                /\ query_item k VInt (Some 0%Z) = [])
  /\ (fst (get_transfers remote self fd td ps wl dst src w)
        = Raise (ValueError conflict_message)
      <-> truthy wl && (truthy dst || truthy src) = true)
  /\ fst (get_transfers remote self fd td ps (Some "") dst src w)
       <> Raise (ValueError conflict_message)
  /\ issued (get_transfers remote self fd td ps (Some "") dst src) w
     = [(_session self,
         {| req_method := "GET"; req_url := url self +:+ "/transfers";
            req_params := expected_query fd td ps None dst src;
            req_json := None; req_timeout := timeout self |})].
Proof.
  split; [|split; [|split; [|split]]].
  - rewrite !get_transfers_cases.
    unfold conflicting, expected_query.
    rewrite !truthy_absent, !query_item_absent. reflexivity.
  - intros k. split; reflexivity.
  - rewrite get_transfers_cases. fold (conflicting wl dst src).
    destruct (conflicting wl dst src).
    + split; reflexivity.
    + split; [|discriminate].
      intros Hv. exfalso. revert Hv.
      unfold session_get. apply send_json_not_value_error.
  - rewrite get_transfers_cases. cbn [conflicting truthy truthy_optional truthy_str andb].
    unfold session_get. apply send_json_not_value_error.
  - apply issued_append. rewrite get_transfers_cases.
    cbn [conflicting truthy truthy_optional truthy_str andb].
    unfold session_get. rewrite send_json_world. reflexivity.
Qed.

Lemma or_else_empty (memo : option string) :
  or_else memo "" = match memo with Some m => m | None => "" end.
Proof. destruct memo as [[|c m]|]; reflexivity. Qed.

(** C3: [create_transfer] posts to [/transfers] one JSON object with
    exactly the caller's [idempotencyKey], the source wallet of the
    client, a blockchain destination on chain XLM with the given address
    and the memo (or the empty string) as [addressTag], and an amount
    in USD. *)
Theorem create_transfer_body self idempotency_key account amount memo w :
  issued (create_transfer remote self idempotency_key account amount memo) w
  = [(_session self,
      {| req_method := "POST";
         req_url := url self +:+ "/transfers";
         req_params := [];
         req_json := Some (JObj
           [("idempotencyKey", JStr idempotency_key);
            ("source",
             JObj [("type", JStr "wallet"); ("id", JStr (wallet_id self))]);
            ("destination",
             JObj [("type", JStr "blockchain");
                   ("address", JStr account);
                   ("chain", JStr "XLM");
                   ("addressTag",
                    JStr match memo with Some m => m | None => "" end)]);
            ("amount",
             JObj [("amount", JStr (str amount));
                   ("currency", JStr "USD")])]);
         req_timeout := timeout self |})].
Proof.
  apply issued_append. unfold create_transfer, session_post.
  rewrite send_json_world, or_else_empty. reflexivity.
Qed.

(** C4: [create_address] posts to the addresses path of the configured
    wallet the object [{idempotencyKey, currency: "USD", chain: "XLM"}];
    the key is the caller's, the two other values are constants. *)
Theorem create_address_body self idempotency_key w :
  issued (create_address remote self idempotency_key) w
  = [(_session self,
      {| req_method := "POST";
         req_url := url self +:+ "/wallets/" +:+ wallet_id self +:+ "/addresses";
         req_params := [];
         req_json := Some (JObj
           [("idempotencyKey", JStr idempotency_key);
            ("currency", JStr "USD");
            ("chain", JStr "XLM")]);
         req_timeout := timeout self |})].
Proof.
  apply issued_append. unfold create_address, session_post.
  rewrite send_json_world. reflexivity.
Qed.

(** C7: each of the five operations hands [self.timeout] to its one
    request, whatever its value; in [get_wallet] and [create_address]
    the [optional_kwargs] computed from the truthiness of the timeout
    plays no part. *)
Theorem timeout_passed_unconditionally self w :
  (forall fd td ps wl dst src,
      issued (get_transfers remote self fd td ps wl dst src) w
      = if conflicting wl dst src then []
        else [(_session self,
               {| req_method := "GET";
                  req_url := url self +:+ "/transfers";
                  req_params := expected_query fd td ps wl dst src;
                  req_json := None;
                  req_timeout := timeout self |})])
  /\ (forall transfer_id,
      issued (get_transfer remote self transfer_id) w
      = [(_session self,
          {| req_method := "GET";
             req_url := url self +:+ "/transfers/" +:+ transfer_id;
             req_params := [];
             req_json := None;
             req_timeout := timeout self |})])
  /\ (forall idempotency_key account amount memo,
      exists j,
      issued (create_transfer remote self idempotency_key account amount memo) w
      = [(_session self,
          {| req_method := "POST";
             req_url := url self +:+ "/transfers";
             req_params := [];
             req_json := Some j;
             req_timeout := timeout self |})])
  /\ issued (get_wallet remote self) w
     = [(_session self,
         {| req_method := "GET";
            req_url := url self +:+ "/wallets/" +:+ wallet_id self;
            req_params := [];
            req_json := None;
            req_timeout := timeout self |})]
  /\ (forall idempotency_key,
      exists j,
      issued (create_address remote self idempotency_key) w
      = [(_session self,
          {| req_method := "POST";
             req_url := url self +:+ "/wallets/" +:+ wallet_id self
                        +:+ "/addresses";
             req_params := [];
             req_json := Some j;
             req_timeout := timeout self |})]).
Proof.
  split; [|split; [|split; [|split]]].
  - intros. destruct (conflicting wl dst src) eqn:Hc.
    + apply issued_same. rewrite get_transfers_clash by exact Hc. reflexivity.
    + apply issued_append. rewrite get_transfers_pass by exact Hc.
      unfold session_get. rewrite send_json_world. reflexivity.
  - intros. apply issued_append. unfold get_transfer, session_get.
    rewrite send_json_world. reflexivity.
  - intros. eexists. apply issued_append.
    unfold create_transfer, session_post.
    rewrite send_json_world. reflexivity.
  - apply issued_append. unfold get_wallet, session_get.
    rewrite send_json_world. reflexivity.
  - intros. eexists. apply issued_append.
    unfold create_address, session_post.
    rewrite send_json_world. reflexivity.
Qed.

End Operations.

(** ** Scoped use *)

Lemma session_close_clears s :
  map_Forall (fun _ a => pool_cleared a = true) (adapters (session_close s)).
Proof.
  unfold session_close. cbn [adapters].
  apply map_Forall_fmap, map_Forall_lookup. intros prefix a _. reflexivity.
Qed.

(** C8: leaving the scope of [with client as c: ...] runs [__exit__], which
    calls [close], whether the body returned or raised: the session of the
    client is the closed one, all its adapters have their pools cleared,
    and the outcome of the body is passed on (an exception is re-raised). *)
Theorem exit_closes_session {A} (mgr : CircleClient)
    (body : CircleClient -> M A) (w : world) :
  with_ mgr body w
    = (match fst (body mgr w) with
       | Ok a => Ok (Some a)
       | Raise e => Raise e
       end,
       snd (client_close mgr (snd (body mgr w))))
  /\ (forall args w', __exit__ mgr args w' = (Ok None, snd (client_close mgr w')))
  /\ sessions (snd (with_ mgr body w)) !! _session mgr
     = session_close <$> sessions (snd (body mgr w)) !! _session mgr
  /\ (forall s,
        map_Forall (fun _ a => pool_cleared a = true)
          (adapters (session_close s))).
Proof.
  assert (Hrun : with_ mgr body w
    = (match fst (body mgr w) with
       | Ok a => Ok (Some a)
       | Raise e => Raise e
       end,
       snd (client_close mgr (snd (body mgr w))))).
  { unfold with_, __enter__. rewrite bind_ret.
    destruct (body mgr w) as [[a|e] wb]; reflexivity. }
  split; [exact Hrun|]. split; [reflexivity|]. split.
  - rewrite Hrun. cbn. apply lookup_alter_eq.
  - apply session_close_clears.
Qed.

(** ** Construction *)

Section Construction.

Variable default_session : Session.

Lemma client_headers api_key :
  update [("Authorization", "Bearer " +:+ api_key);
          ("Accept", "application/json");
          ("Content-Type", "application/json")]
         IDENTIFICATION_HEADERS
  = [("Authorization", "Bearer " +:+ api_key);
     ("Accept", "application/json");
     ("Content-Type", "application/json");
     ("User-Agent", "django-polaris-circle/CircleClient");
     ("X-Client-Name", "django-polaris-circle")].
Proof. reflexivity. Qed.

(** C6: built without a session, the client makes a new one and sets it
    up: the retry policy has [total = num_retries], the given backoff
    factor, GET and POST as the only retried methods, no redirect and no
    raising on status; the adapter mounted for [http://] and [https://]
    has both pool sizes equal to [pool_size]; the session headers carry
    the bearer token, JSON [Accept] and [Content-Type] and the two
    identification headers.  Built with a session, the client keeps it
    and the store is untouched. *)
Theorem init_transport api_key api_url wallet_id timeout pool_size
    backoff_factor num_retries w :
  let l := fresh (dom (sessions w)) in
  let adapter := client_adapter pool_size num_retries backoff_factor in
  let self session :=
    {| api_key := api_key; url := api_url; wallet_id := wallet_id;
       timeout := timeout; pool_size := pool_size;
       num_retries := num_retries; backoff_factor := backoff_factor;
       _session := session |} in
  (exists s,
      __init__ default_session api_key api_url wallet_id timeout pool_size
        backoff_factor num_retries None w
      = (Ok (self l),
         {| sessions := <[l := s]> (sessions w); wire := wire w |})
      /\ sessions w !! l = None
      /\ adapters s = <["https://" := adapter]>
                        (<["http://" := adapter]> (adapters default_session))
      /\ adapters s !! "http://" = Some adapter
      /\ adapters s !! "https://" = Some adapter
      /\ header_get "Authorization" (headers s) = Some ("Bearer " +:+ api_key)
      /\ header_get "Accept" (headers s) = Some "application/json"
      /\ header_get "Content-Type" (headers s) = Some "application/json"
      /\ header_get "User-Agent" (headers s)
         = Some "django-polaris-circle/CircleClient"
      /\ header_get "X-Client-Name" (headers s) = Some "django-polaris-circle")
  /\ Urllib3.total (max_retries adapter) = num_retries
  /\ Urllib3.backoff_factor (max_retries adapter) = backoff_factor
  /\ (forall m, m ∈ Urllib3.allowed_methods (max_retries adapter)
                <-> m = "GET" \/ m = "POST")
  /\ Urllib3.redirect (max_retries adapter) = 0%Z
  /\ Urllib3.raise_on_status (max_retries adapter) = false
  /\ pool_connections adapter = pool_size
  /\ pool_maxsize adapter = pool_size
  /\ (forall session,
        __init__ default_session api_key api_url wallet_id timeout pool_size
          backoff_factor num_retries (Some session) w
        = (Ok (self session), w)).
Proof.
  intros l adapter self.
  split; [|repeat (split; [reflexivity|]); split; [|repeat (split; [reflexivity|])]].
  - eexists. split; [|split].
    + unfold __init__, bind, Session_new, modify_session. cbn [sessions wire].
      rewrite client_headers, !alter_insert_eq. reflexivity.
    + apply not_elem_of_dom, is_fresh.
    + cbn [adapters session_mount session_headers_update headers].
      split; [reflexivity|].
      split; [by rewrite lookup_insert_ne, lookup_insert_eq|].
      split; [by rewrite lookup_insert_eq|].
      unfold header_get, headers_update, header_set.
      cbn [foldl fst snd].
      repeat split; vm_compute lower; by simplify_map_eq.
  - intros m. cbn. set_solver.
  - reflexivity.
Qed.

End Construction.

(** ** Strings and numerals *)

Section Strings.

Lemma str_app_cons x (a b : string) : String x a +:+ b = String x (a +:+ b).
Proof. reflexivity. Qed.

Lemma str_app_nil_l (a : string) : "" +:+ a = a.
Proof. reflexivity. Qed.

Lemma str_app_assoc (a b c : string) : (a +:+ b) +:+ c = a +:+ (b +:+ c).
Proof.
  induction a as [|x a IH]; [reflexivity|].
  rewrite !str_app_cons. by rewrite IH.
Qed.

Lemma str_app_nil_r (a : string) : a +:+ "" = a.
Proof.
  induction a as [|x a IH]; [reflexivity|].
  rewrite str_app_cons. by rewrite IH.
Qed.

Lemma str_length_app (a b : string) :
  String.length (a +:+ b) = String.length a + String.length b.
Proof.
  induction a as [|x a IH]; [reflexivity|].
  rewrite str_app_cons. cbn [String.length]. by rewrite IH.
Qed.

Lemma length_repeat_char c n : String.length (repeat_char c n) = n.
Proof. induction n as [|n IH]; [reflexivity|]. cbn. by rewrite IH. Qed.

Lemma repeat_char_shift c n (s : string) :
  repeat_char c n +:+ String c s = String c (repeat_char c n +:+ s).
Proof.
  induction n as [|n IH]; [reflexivity|].
  cbn [repeat_char]. rewrite !str_app_cons. by rewrite IH.
Qed.

End Strings.

Section Numerals.

Local Open Scope Z_scope.

Lemma digit_pretty (x : N) : (x < 10)%N -> pretty_N_char x = digit (Z.of_N x).
Proof.
  intros Hx.
  assert (x = 0 \/ x = 1 \/ x = 2 \/ x = 3 \/ x = 4 \/ x = 5 \/ x = 6
          \/ x = 7 \/ x = 8 \/ x = 9)%N as H by lia.
  repeat destruct H as [->|H]; try reflexivity. by subst.
Qed.

Lemma fixed_width_snoc k n :
  0 <= n ->
  fixed_width (S k) n
  = fixed_width k (n / 10) +:+ String (digit (n mod 10)) "".
Proof.
  intros Hn. induction k as [|k IH].
  - cbn. by rewrite Z.div_1_r.
  - change (fixed_width (S (S k)) n)
      with (String (digit (n / 10 ^ Z.of_nat (S k) mod 10)) (fixed_width (S k) n)).
    rewrite IH.
    change (fixed_width (S k) (n / 10))
      with (String (digit (n / 10 / 10 ^ Z.of_nat k mod 10))
              (fixed_width k (n / 10))).
    rewrite str_app_cons. do 3 f_equal.
    rewrite Z.div_div by lia. f_equal.
    rewrite Nat2Z.inj_succ, Z.pow_succ_r by lia. reflexivity.
Qed.

Lemma fixed_width_zero k : fixed_width k 0 = repeat_char "0" k.
Proof.
  induction k as [|k IH]; [reflexivity|].
  cbn [fixed_width repeat_char]. rewrite IH, Z.div_0_l; [reflexivity|].
  apply Z.pow_nonzero; lia.
Qed.

Lemma length_fixed_width k n : String.length (fixed_width k n) = k.
Proof. induction k as [|k IH]; [reflexivity|]. cbn. by rewrite IH. Qed.



(** The numeral of [x] is [fixed_width k x] without its leading zeros. *)
Lemma pretty_go_fixed k :
  forall (x : N) (s : string),
    (x < 10 ^ N.of_nat k)%N ->
    exists j : nat,
      (j <= k)%nat
      /\ fixed_width k (Z.of_N x) +:+ s = repeat_char "0" j +:+ pretty_N_go x s
      /\ String.length (pretty_N_go x s) = (k - j + String.length s)%nat.
Proof.
  induction k as [|k IH]; intros x s Hx.
  - assert (x = 0%N) as -> by (cbn in Hx; lia).
    exists 0%nat. rewrite pretty_N_go_0. repeat split; reflexivity.
  - destruct (N.eq_dec x 0) as [->|Hpos].
    + exists (S k). rewrite pretty_N_go_0.
      change (Z.of_N 0) with 0. rewrite fixed_width_zero.
      repeat split; [lia|]. rewrite Nat.sub_diag. reflexivity.
    + rewrite pretty_N_go_step by lia.
      destruct (IH (x `div` 10)%N
                  (String (pretty_N_char (x `mod` 10)%N) s)) as (j & Hj & Heq & Hlen).
      { rewrite Nat2N.inj_succ, N.pow_succ_r' in Hx.
        apply N.Div0.div_lt_upper_bound. exact Hx. }
      exists j. split; [lia|]. split.
      * rewrite <- Heq, fixed_width_snoc by lia.
        rewrite str_app_assoc, str_app_cons, str_app_nil_l.
        rewrite N2Z.inj_div, digit_pretty by (apply N.mod_lt; lia).
        rewrite N2Z.inj_mod. reflexivity.
      * rewrite Hlen. cbn [String.length]. lia.
Qed.

(** Within its width, zero padding yields exactly the fixed-width digits. *)
Lemma fmt_0d_fixed (w : nat) (n : Z) :
  (1 <= w)%nat -> 0 <= n < 10 ^ Z.of_nat w ->
  fmt_0d w n = fixed_width w n.
Proof.
  intros Hw [Hn0 Hn]. unfold fmt_0d.
  destruct (Z.leb_spec 0 n) as [_|?]; [|lia].
  destruct n as [|p|p]; [| |lia].
  - rewrite fixed_width_zero. unfold zfill. cbn [pretty pretty_Z String.length].
    destruct w as [|w]; [lia|].
    replace (S w - 1)%nat with w by lia.
    rewrite repeat_char_shift, str_app_nil_r. reflexivity.
  - destruct (pretty_go_fixed w (N.pos p) "") as (j & Hj & Heq & Hlen).
    { apply N2Z.inj_lt. rewrite N2Z.inj_pow, nat_N_Z. exact Hn. }
    rewrite str_app_nil_r in Heq. change (Z.of_N (N.pos p)) with (Z.pos p) in Heq.
    rewrite Heq. unfold zfill.
    change (pretty (Z.pos p)) with (pretty_N_go (N.pos p) "").
    rewrite Hlen. cbn [String.length].
    replace (w - (w - j + 0))%nat with j by lia. reflexivity.
Qed.




End Numerals.

(** ** Timestamps *)

Section Timestamps.

Context {libc : CLibrary}.
Variable remote : world -> nat -> request -> failure + response.

(** The format string, interpreted: the seven fields between their
    separators and a final letter Z. *)
Lemma strftime_circle d :
  strftime d CIRCLE_DATETIME_FORMAT
  = (if pads_year then fmt_0d 4 (year d) else fmt_d (year d))
    +:+ "-" +:+ fmt_0d 2 (month d) +:+ "-"
    +:+ fmt_0d 2 (day d) +:+ "T" +:+ fmt_0d 2 (hour d) +:+ ":"
    +:+ fmt_0d 2 (minute d) +:+ ":" +:+ fmt_0d 2 (second d) +:+ "."
    +:+ fmt_0d 6 (microsecond d) +:+ "Z".
Proof. reflexivity. Qed.

Lemma days_in_month_le y m : (days_in_month y m <= 31)%Z.
Proof.
  unfold days_in_month.
  repeat match goal with |- context [if ?b then _ else _] => destruct b end; lia.
Qed.

Lemma valid_ranges d :
  valid d = true ->
  (1 <= year d <= 9999 /\ 1 <= month d <= 12 /\ 1 <= day d <= 31
   /\ 0 <= hour d <= 23 /\ 0 <= minute d <= 59 /\ 0 <= second d <= 59
   /\ 0 <= microsecond d <= 999999)%Z.
Proof.
  unfold valid. intros H.
  repeat (apply andb_prop in H as [H ?]).
  pose proof (days_in_month_le (year d) (month d)).
  repeat match goal with
         | H : (_ <=? _)%Z = true |- _ => apply Z.leb_le in H
         end.
  lia.
Qed.

(** The part after the year has the fixed widths on every C library. *)
Lemma strftime_valid_parts d :
  valid d = true ->
  strftime d CIRCLE_DATETIME_FORMAT
  = (if pads_year then fixed_width 4 (year d) else fmt_d (year d))
    +:+ String "-" (
    fixed_width 2 (month d) +:+ String "-" (
    fixed_width 2 (day d) +:+ String "T" (
    fixed_width 2 (hour d) +:+ String ":" (
    fixed_width 2 (minute d) +:+ String ":" (
    fixed_width 2 (second d) +:+ String "." (
    fixed_width 6 (microsecond d) +:+ String "Z" "")))))).
Proof.
  intros Hv. apply valid_ranges in Hv.
  rewrite strftime_circle.
  rewrite !fmt_0d_fixed by (cbn; lia). reflexivity.
Qed.






End Timestamps.

(** ** Decimal numerals *)

Section Digits.

Lemma is_digit_cases c :
  is_digit c = true ->
  c = "0"%char \/ c = "1"%char \/ c = "2"%char \/ c = "3"%char
  \/ c = "4"%char \/ c = "5"%char \/ c = "6"%char \/ c = "7"%char
  \/ c = "8"%char \/ c = "9"%char.
Proof.
  destruct c as [[] [] [] [] [] [] [] []]; vm_compute; intros H;
    try discriminate H; tauto.
Qed.

Lemma is_digit_pretty_char x : is_digit (pretty_N_char x) = true.
Proof. unfold pretty_N_char. by repeat case_match. Qed.

Lemma all_digits_app a b :
  all_digits (a +:+ b) = all_digits a && all_digits b.
Proof.
  induction a as [|c a IH]; [reflexivity|].
  rewrite str_app_cons. cbn [all_digits]. rewrite IH. by rewrite andb_assoc.
Qed.

Lemma all_digits_zeros n : all_digits (repeat_char "0" n) = true.
Proof. induction n as [|n IH]; [reflexivity|]. cbn [repeat_char all_digits]. by rewrite IH. Qed.

Lemma take_drop n s : str_take n s +:+ str_drop n s = s.
Proof.
  revert s. induction n as [|n IH]; intros [|c s]; try reflexivity.
  cbn [str_take str_drop]. rewrite str_app_cons. by rewrite IH.
Qed.

Lemma length_drop n s :
  String.length (str_drop n s) = (String.length s - n)%nat.
Proof.
  revert s. induction n as [|n IH]; intros [|c s]; try reflexivity.
  cbn [str_drop String.length]. by rewrite IH.
Qed.

Lemma all_digits_take_drop n s :
  all_digits s = true ->
  all_digits (str_take n s) = true /\ all_digits (str_drop n s) = true.
Proof.
  intros H. rewrite <- (take_drop n s), all_digits_app in H.
  by apply andb_prop in H.
Qed.

Lemma span_digits_app a r :
  all_digits a = true -> span_digits r = ("", r) ->
  span_digits (a +:+ r) = (a, r).
Proof.
  intros Ha Hr. induction a as [|c a IH]; [exact Hr|].
  cbn [all_digits] in Ha. apply andb_prop in Ha as [Hc Ha].
  rewrite str_app_cons. cbn [span_digits]. rewrite Hc, (IH Ha). reflexivity.
Qed.

Lemma lstrip_zeros_zeros n s :
  lstrip_zeros (repeat_char "0" n +:+ s) = lstrip_zeros s.
Proof. induction n as [|n IH]; [reflexivity|]. exact IH. Qed.

End Digits.

Section Readback.

Local Open Scope Z_scope.

Lemma pretty_go_app x : forall s, pretty_N_go x s = pretty_N_go x "" +:+ s.
Proof.
  induction (N.lt_wf_0 x) as [x _ IH]; intros s.
  destruct (N.eq_dec x 0) as [->|Hx]; [reflexivity|].
  assert (Hlt : (x `div` 10 < x)%N) by (apply N.div_lt; lia).
  rewrite !(pretty_N_go_step x) by lia.
  rewrite (IH _ Hlt (String _ s)), (IH _ Hlt (String _ "")).
  rewrite str_app_assoc. reflexivity.
Qed.

Lemma all_digits_pretty_go x : all_digits (pretty_N_go x "") = true.
Proof.
  induction (N.lt_wf_0 x) as [x _ IH].
  destruct (N.eq_dec x 0) as [->|Hx]; [reflexivity|].
  rewrite pretty_N_go_step, pretty_go_app, all_digits_app by lia.
  rewrite IH by (apply N.div_lt; lia).
  cbn [all_digits andb]. by rewrite is_digit_pretty_char.
Qed.

Lemma digits_value_app a b acc :
  digits_value acc (a +:+ b) = digits_value (digits_value acc a) b.
Proof.
  revert acc. induction a as [|c a IH]; intros acc; [reflexivity|].
  rewrite str_app_cons. cbn [digits_value]. apply IH.
Qed.

Lemma pretty_char_value x :
  (x < 10)%N -> Z.of_nat (nat_of_ascii (pretty_N_char x)) - 48 = Z.of_N x.
Proof.
  intros Hx.
  assert (x = 0 \/ x = 1 \/ x = 2 \/ x = 3 \/ x = 4 \/ x = 5 \/ x = 6
          \/ x = 7 \/ x = 8 \/ x = 9)%N as H by lia.
  repeat destruct H as [->|H]; try reflexivity. by subst.
Qed.

Lemma digits_value_pretty_go x : digits_value 0 (pretty_N_go x "") = Z.of_N x.
Proof.
  induction (N.lt_wf_0 x) as [x _ IH].
  destruct (N.eq_dec x 0) as [->|Hx]; [reflexivity|].
  rewrite pretty_N_go_step, pretty_go_app, digits_value_app by lia.
  rewrite IH by (apply N.div_lt; lia).
  cbn [digits_value]. rewrite pretty_char_value by (apply N.mod_lt; lia).
  rewrite (N.div_mod x 10) at 3 by lia. lia.
Qed.

Lemma pretty_go_nonempty x : (0 < x)%N -> pretty_N_go x "" <> "".
Proof.
  intros Hx. rewrite pretty_N_go_step, pretty_go_app by lia.
  destruct (pretty_N_go (x `div` 10) ""); discriminate.
Qed.

Lemma pretty_pos_digits p :
  all_digits (pretty (Z.pos p)) = true
  /\ pretty (Z.pos p) <> ""
  /\ digits_value 0 (pretty (Z.pos p)) = Z.pos p.
Proof.
  change (pretty (Z.pos p)) with (pretty_N_go (N.pos p) "").
  split; [apply all_digits_pretty_go|]. split.
  - apply pretty_go_nonempty. lia.
  - apply digits_value_pretty_go.
Qed.

Lemma read_sign_digits s :
  all_digits s = true -> read_sign s = (false, s).
Proof.
  destruct s as [|c s]; [reflexivity|]. cbn [all_digits]. intros H.
  apply andb_prop in H as [Hc _]. apply is_digit_cases in Hc.
  repeat destruct Hc as [->|Hc]; try reflexivity. by subst.
Qed.

Lemma read_int_fmt n : read_int (fmt_plus_d n) = Some n.
Proof.
  unfold fmt_plus_d. destruct n as [|p|p]; cbn [Z.leb Z.compare].
  - reflexivity.
  - destruct (pretty_pos_digits p) as (Hd & Hne & Hv).
    unfold read_int. cbn [read_sign Ascii.eqb]. 
    change (read_sign ("+" +:+ pretty (Z.pos p))) with (false, pretty (Z.pos p)).
    cbn [fst snd]. rewrite Hd, Hv. destruct (pretty (Z.pos p)); [done|reflexivity].
  - destruct (pretty_pos_digits p) as (Hd & Hne & Hv).
    unfold read_int.
    change (read_sign (pretty (Z.neg p))) with (true, pretty (Z.pos p)).
    cbn [fst snd]. rewrite Hd, Hv. destruct (pretty (Z.pos p)); [done|reflexivity].
Qed.

End Readback.

Section Reading.

Context {ctx : DecimalContext}.

Local Open Scope Z_scope.

Lemma digit_head c (s : string) :
  is_digit c = true ->
  read_sign (String c s) = (false, String c s)
  /\ String.eqb (String c s) "Infinity" = false
  /\ strip_prefix "NaN" (String c s) = None
  /\ strip_prefix "sNaN" (String c s) = None.
Proof.
  intros Hc. apply is_digit_cases in Hc.
  repeat destruct Hc as [->|Hc]; subst; repeat split; reflexivity.
Qed.

Lemma exponent_part_stops (e : option Z) :
  let E := match e with
           | Some n => (if capitals then "E" else "e") +:+ fmt_plus_d n
           | None => ""
           end in
  span_digits E = ("", E) /\ strip_prefix "." E = None.
Proof. destruct e; destruct capitals; split; reflexivity. Qed.

(** A printed finite number reads back as its sign, the digits around the
    point without leading zeros, and the exponent less the number of
    fraction digits. *)
Lemma read_numeral sg ip fp e :
  all_digits ip = true -> ip <> "" ->
  all_digits (default "" fp) = true ->
  read_decimal (numeral sg ip fp e)
  = Some {| _sign := sg; _int := canonical (ip +:+ default "" fp);
            _exp := Finite (default 0 e - len (default "" fp)) |}.
Proof.
  intros Hip Hne Hfp.
  destruct ip as [|c ip]; [done|].
  assert (Hc : is_digit c = true).
  { cbn [all_digits] in Hip. by apply andb_prop in Hip as [? _]. }
  set (E := match e with
            | Some n => (if capitals then "E" else "e") +:+ fmt_plus_d n
            | None => ""
            end).
  set (F := match fp with Some f => "." +:+ f | None => "" end).
  assert (Hsign : read_sign (numeral sg (String c ip) fp e)
                  = (sg, String c (ip +:+ F +:+ E))).
  { unfold numeral. fold E F. rewrite (str_app_cons c ip).
    destruct sg; [reflexivity|].
    rewrite str_app_nil_l. apply (digit_head c _ Hc). }
  destruct (digit_head c (ip +:+ F +:+ E) Hc) as (_ & Hinf & Hnan & Hsnan).
  unfold read_decimal. rewrite Hsign. cbn [fst snd].
  rewrite Hinf, Hnan, Hsnan.
  destruct (exponent_part_stops e) as [HE1 HE2]. fold E in HE1, HE2.
  assert (Hspan : span_digits (String c (ip +:+ F +:+ E))
                  = (String c ip, F +:+ E)).
  { rewrite <- str_app_cons. apply span_digits_app; [exact Hip|].
    destruct fp as [f|]; [reflexivity|]. exact HE1. }
  unfold read_finite. rewrite Hspan. cbn [fst snd].
  assert (Hfrac :
    (match strip_prefix "." (F +:+ E) with
     | Some r => fst (span_digits r)
     | None => ""
     end = default "" fp)
    /\ (match strip_prefix "." (F +:+ E) with
        | Some r => snd (span_digits r)
        | None => F +:+ E
        end = E)).
  { destruct fp as [f|]; unfold F.
    - change (strip_prefix "." (("." +:+ f) +:+ E)) with (Some (f +:+ E)).
      cbn match. rewrite (span_digits_app f E Hfp HE1). split; reflexivity.
    - rewrite str_app_nil_l, HE2. split; reflexivity. }
  destruct Hfrac as [-> ->].
  rewrite str_app_cons.
  change (String.eqb (String c (ip +:+ default "" fp)) "") with false.
  cbn match.
  destruct e as [n|]; unfold E.
  - destruct capitals.
    + change (String.eqb ("E" +:+ fmt_plus_d n) "") with false. cbn match.
      change (strip_prefix "E" ("E" +:+ fmt_plus_d n))
        with (Some (fmt_plus_d n)).
      cbn match. rewrite read_int_fmt. reflexivity.
    + change (String.eqb ("e" +:+ fmt_plus_d n) "") with false. cbn match.
      change (strip_prefix "E" ("e" +:+ fmt_plus_d n)) with (@None string).
      change (strip_prefix "e" ("e" +:+ fmt_plus_d n))
        with (Some (fmt_plus_d n)).
      cbn match. rewrite read_int_fmt. reflexivity.
  - cbn. reflexivity.
Qed.

Lemma length_take n s :
  (n <= String.length s)%nat -> String.length (str_take n s) = n.
Proof.
  revert s. induction n as [|n IH]; intros [|c s] Hn; try reflexivity.
  - cbn in Hn. lia.
  - cbn [str_take String.length] in *. rewrite IH; lia.
Qed.

(** The five shapes [str] gives a finite number. *)
Lemma str_finite_cases sg ds e :
  let L := len ds in
  __str__ {| _sign := sg; _int := ds; _exp := Finite e |}
  = if (e <=? 0) && (-6 <? e + L) then
      if e + L <=? 0 then
        numeral sg "0" (Some (str_mul "0" (- (e + L)) +:+ ds)) None
      else if L <=? e + L then
        numeral sg (ds +:+ str_mul "0" (e + L - L)) None None
      else
        numeral sg (str_take (Z.to_nat (e + L)) ds)
          (Some (str_drop (Z.to_nat (e + L)) ds)) None
    else
      if L <=? 1 then
        numeral sg (ds +:+ str_mul "0" (1 - L)) None
          (if e + L =? 1 then None else Some (e + L - 1))
      else
        numeral sg (str_take 1 ds) (Some (str_drop 1 ds))
          (if e + L =? 1 then None else Some (e + L - 1)).
Proof.
  intros L. unfold __str__, numeral. cbn [_sign _int _exp]. fold L.
  destruct ((e <=? 0) && (-6 <? e + L)).
  - rewrite Z.eqb_refl.
    destruct (e + L <=? 0); [reflexivity|].
    destruct (L <=? e + L); reflexivity.
  - change (1 <=? 0) with false. cbn match.
    destruct (L <=? 1), (e + L =? 1); reflexivity.
Qed.

Lemma canonical_nonempty ds : canonical ds = ds -> ds <> "".
Proof. intros H ->. discriminate H. Qed.

Lemma read_str_finite sg ds e :
  all_digits ds = true -> canonical ds = ds ->
  read_decimal (__str__ {| _sign := sg; _int := ds; _exp := Finite e |})
  = Some {| _sign := sg; _int := ds; _exp := Finite e |}.
Proof.
  intros Hd Hc. pose proof (canonical_nonempty ds Hc) as Hne.
  assert (HL : 1 <= len ds).
  { unfold len. destruct ds; [done|]. cbn [String.length]. lia. }
  rewrite str_finite_cases. cbv zeta.
  destruct (all_digits_take_drop (Z.to_nat (e + len ds)) ds Hd) as [Ht Hdr].
  destruct (all_digits_take_drop 1 ds Hd) as [Ht1 Hdr1].
  assert (Hcan : forall a b, a +:+ b = ds -> canonical (a +:+ b) = ds).
  { intros a b ->. exact Hc. }
  assert (Hnil : str_mul "0" 0 = "") by reflexivity.
  destruct (Z.leb_spec e 0) as [He|He], (Z.ltb_spec (-6) (e + len ds)) as [Hl|Hl];
    cbn [andb].
  1:{ destruct (Z.leb_spec (e + len ds) 0) as [H0|H0];
      [|destruct (Z.leb_spec (len ds) (e + len ds)) as [H1|H1]].
    + rewrite read_numeral; [|reflexivity|done|].
      2:{ cbn [default from_option id]. unfold str_mul.
          by rewrite all_digits_app, all_digits_zeros, Hd. }
      cbn [default from_option id]. f_equal. f_equal.
      * unfold canonical, str_mul.
        change ("0" +:+ repeat_char "0" ?n +:+ ds)
          with (repeat_char "0" (S n) +:+ ds).
        rewrite lstrip_zeros_zeros. exact Hc.
      * f_equal. unfold len, str_mul.
        rewrite str_length_app, length_repeat_char. unfold len in H0. lia.
    + replace (e + len ds - len ds) with 0 by lia.
      rewrite Hnil, str_app_nil_r.
      rewrite read_numeral by done.
      cbn [default from_option id]. rewrite str_app_nil_r, Hc.
      do 3 f_equal. change (len "") with 0. lia.
    + assert (Hk : (Z.to_nat (e + len ds) <= String.length ds)%nat)
        by (unfold len in *; lia).
      rewrite read_numeral; [|exact Ht| |exact Hdr].
      2:{ intros Hnil'. apply (f_equal String.length) in Hnil'.
          rewrite length_take in Hnil' by exact Hk. cbn in Hnil'. lia. }
      cbn [default from_option id]. rewrite take_drop, Hc.
      do 3 f_equal. unfold len. rewrite length_drop. unfold len in *. lia. }
  all: destruct (Z.leb_spec (len ds) 1) as [H1|H1];
    destruct (Z.eqb_spec (e + len ds) 1) as [E1|E1]; try lia.
  all: try (replace (1 - len ds) with 0 by lia;
            rewrite Hnil, str_app_nil_r, read_numeral by done;
            cbn [default from_option id]; rewrite str_app_nil_r, Hc;
            do 3 f_equal; change (len "") with 0; lia).
  all: rewrite read_numeral; [|exact Ht1| |exact Hdr1].
  all: try (destruct ds; [exfalso; by apply Hne|discriminate]).
  all: cbn [default from_option id]; rewrite take_drop, Hc.
  all: do 3 f_equal; unfold len; rewrite length_drop; unfold len in *; lia.
Qed.

(** Reading undoes printing. *)
Lemma read_str d :
  well_formed d = true -> read_decimal (__str__ d) = Some d.
Proof.
  destruct d as [sg ds ex]. unfold well_formed. cbn [_int _exp].
  intros H. apply andb_prop in H as [Hd Hx].
  destruct ex as [e| | |]; apply String.eqb_eq in Hx.
  - by apply read_str_finite.
  - subst ds. destruct sg; reflexivity.
  - unfold __str__, read_decimal. cbn [_sign _int _exp].
    destruct sg.
    + change (read_sign ("-" +:+ "NaN" +:+ ds)) with (true, "NaN" +:+ ds).
      change (strip_prefix "NaN" (snd (true, "NaN" +:+ ds))) with (Some ds).
      cbn. rewrite Hd, Hx. reflexivity.
    + change (read_sign ("" +:+ "NaN" +:+ ds)) with (false, "NaN" +:+ ds).
      change (strip_prefix "NaN" (snd (false, "NaN" +:+ ds))) with (Some ds).
      cbn. rewrite Hd, Hx. reflexivity.
  - unfold __str__, read_decimal. cbn [_sign _int _exp].
    destruct sg.
    + change (read_sign ("-" +:+ "sNaN" +:+ ds)) with (true, "sNaN" +:+ ds).
      change (strip_prefix "sNaN" (snd (true, "sNaN" +:+ ds))) with (Some ds).
      cbn. rewrite Hd, Hx. reflexivity.
    + change (read_sign ("" +:+ "sNaN" +:+ ds)) with (false, "sNaN" +:+ ds).
      change (strip_prefix "sNaN" (snd (false, "sNaN" +:+ ds))) with (Some ds).
      cbn. rewrite Hd, Hx. reflexivity.
Qed.

(** Two [Decimal] values with the same printed form are the same value. *)
Lemma str_decimal_inj d d' :
  well_formed d = true -> well_formed d' = true ->
  __str__ d = __str__ d' -> d = d'.
Proof.
  intros Hd Hd' Heq.
  pose proof (read_str d Hd) as H. rewrite Heq, (read_str d' Hd') in H.
  by injection H.
Qed.

End Reading.

(** ** Amounts *)

Section Amounts.

Context {ctx : DecimalContext}.
Variable remote : world -> nat -> request -> failure + response.

(** C2: the [amount] field of the body of [create_transfer] is the JSON
    string [str(amount)]: a [str] amount as it is, a [Decimal] amount
    through [Decimal.__str__], which works on the stored decimal digits
    and loses nothing (the value is read back from the string, so two
    different values never print alike); no binary floating-point value
    is involved.  [Decimal("12.50")] is sent as ["12.50"]. *)
Theorem create_transfer_amount_exact self idempotency_key account amount memo w :
  (exists r,
      issued (create_transfer remote self idempotency_key account amount memo) w
        = [(_session self, r)]
      /\ ((req_json r ≫= field "amount") ≫= field "amount")
         = Some (JStr (str amount)))
  /\ (forall s, str (OfStr s) = s)
  /\ (forall d, str (OfDecimal d) = __str__ d)
  /\ (forall d, well_formed d = true ->
        read_decimal (str (OfDecimal d)) = Some d)
  /\ (forall d d', well_formed d = true -> well_formed d' = true ->
        str (OfDecimal d) = str (OfDecimal d') -> d = d')
  /\ str (OfDecimal twelve_fifty) = "12.50".
Proof.
  split; [|split; [|split; [|split; [|split]]]].
  - eexists. split.
    + apply issued_append. unfold create_transfer, session_post.
      rewrite send_json_world. reflexivity.
    + reflexivity.
  - reflexivity.
  - reflexivity.
  - exact read_str.
  - exact str_decimal_inj.
  - reflexivity.
Qed.

End Amounts.

(** ** Instances *)

(** C1 as worded fails: an empty [wallet_id] given with a source filter,
    and a [wallet_id] given with an empty destination filter, are both
    accepted, and the request is sent. *)
Lemma get_transfers_falsy_filter_accepted :
  get_transfers (libc := glibc) remote_ok client0 None None None
    (Some "") None (Some "2000") world0
  = (Ok JNull,
     {| sessions := sessions world0;
        wire := [(0, {| req_method := "GET";
                        req_url := "https://api.example/transfers";
                        req_params := [("sourceWalletId", VStr "2000")];
                        req_json := None;
                        req_timeout := Some (PyInt 10) |})] |})
  /\ get_transfers (libc := glibc) remote_ok client0 None None None
       (Some "1000") (Some "") None world0
     = (Ok JNull,
        {| sessions := sessions world0;
           wire := [(0, {| req_method := "GET";
                           req_url := "https://api.example/transfers";
                           req_params := [("walletId", VStr "1000")];
                           req_json := None;
                           req_timeout := Some (PyInt 10) |})] |}).
Proof. split; reflexivity. Qed.

(** The conflict at a wallet filter given with a source filter. *)
Lemma get_transfers_conflict_raises_witness :
  truthy (Some "1000") = true
  /\ truthy (None : option string) || truthy (Some "2000") = true
  /\ get_transfers (libc := glibc) remote_ok client0 None None None
       (Some "1000") None (Some "2000") world0
     = (Raise (ValueError conflict_message), world0)
  /\ issued (get_transfers (libc := glibc) remote_ok client0 None None None
               (Some "1000") None (Some "2000")) world0 = [].
Proof.
  split; [reflexivity|]. split; [reflexivity|].
  apply (get_transfers_conflict_raises (libc := glibc) remote_ok client0
           None None None (Some "1000") None (Some "2000") world0);
    reflexivity.
Defined.

(** Reading [Decimal("12.50")] back from what is sent for it. *)
Lemma create_transfer_amount_exact_witness :
  well_formed twelve_fifty = true
  /\ read_decimal (str (ctx := default_context) (OfDecimal twelve_fifty))
     = Some twelve_fifty.
Proof.
  split; [reflexivity|].
  destruct (create_transfer_amount_exact (ctx := default_context) remote_ok
              client0 "key-1" "GACCOUNT" (OfDecimal twelve_fifty) None world0)
    as (_ & _ & _ & H & _).
  apply H. reflexivity.
Defined.



Example circle_timestamp_sample :
  circle_timestamp morning = "2023-01-15T08:30:00.000000Z".
Proof. reflexivity. Qed.

Example decimal_samples :
  __str__ (ctx := default_context)
    {| _sign := true; _int := "1"; _exp := Finite (-7) |} = "-1E-7"
  /\ __str__ (ctx := default_context)
       {| _sign := false; _int := "123"; _exp := Finite 2 |} = "1.23E+4"
  /\ __str__ (ctx := lowercase_context)
       {| _sign := false; _int := "123"; _exp := Finite 2 |} = "1.23e+4"
  /\ __str__ (ctx := default_context)
       {| _sign := false; _int := "5"; _exp := Finite (-3) |} = "0.005"
  /\ __str__ (ctx := lowercase_context)
       {| _sign := false; _int := "125"; _exp := Finite (-1) |} = "12.5".
Proof. repeat split. Qed.

(** ** Outcomes *)

Section Outcomes.

Context {libc : CLibrary} {ctx : DecimalContext}.
Variable remote : world -> nat -> request -> failure + response.

Lemma send_json_relays (self : CircleClient) r w :
  relays remote self (x <- send remote (_session self) r ;; response_json x) w r.
Proof.
  unfold relays, outcome, bind, send.
  destruct (remote w (_session self) r) as [f|resp]; [reflexivity|].
  unfold response_json. destruct (body resp); reflexivity.
Qed.

Lemma relays_issued self m w r :
  relays remote self m w r -> issued m w = [(_session self, r)].
Proof.
  unfold relays. intros H. apply issued_append. rewrite H. reflexivity.
Qed.

(** X1: every operation relays: it sends one request on the session of the
    client and returns the remote's answer to it, a failure as
    [RequestException], an unparseable body as [JSONDecodeError], a parsed
    body as it is and whatever the status code; the store is not touched
    and the wire only grows by that request. *)
Theorem operations_relay self w :
  (forall fd td ps wl dst src,
      if conflicting wl dst src
      then get_transfers remote self fd td ps wl dst src w
           = (Raise (ValueError conflict_message), w)
      else exists r,
          relays remote self (get_transfers remote self fd td ps wl dst src) w r)
  /\ (forall transfer_id,
        exists r, relays remote self (get_transfer remote self transfer_id) w r)
  /\ (forall idempotency_key account amount memo,
        exists r,
          relays remote self
            (create_transfer remote self idempotency_key account amount memo) w r)
  /\ (exists r, relays remote self (get_wallet remote self) w r)
  /\ (forall idempotency_key,
        exists r,
          relays remote self (create_address remote self idempotency_key) w r)
  /\ (forall status status' b,
        outcome (inr {| status_code := status; body := b |})
        = outcome (inr {| status_code := status'; body := b |})).
Proof.
  split; [|split; [|split; [|split; [|split]]]].
  - intros. destruct (conflicting wl dst src) eqn:Hc.
    + apply get_transfers_clash, Hc.
    + eexists. rewrite get_transfers_pass by exact Hc.
      apply send_json_relays.
  - intros. eexists. apply send_json_relays.
  - intros. eexists. apply send_json_relays.
  - eexists. apply send_json_relays.
  - intros. eexists. apply send_json_relays.
  - reflexivity.
Qed.

End Outcomes.

(** ** The query of a list-transfers call *)

Section Query.

Context {libc : CLibrary}.
Variable remote : world -> nat -> request -> failure + response.

Lemma expected_query_lookup fd td ps wl dst src :
  conflicting wl dst src = false ->
  let q := expected_query fd td ps wl dst src in
  getitem "from" q = (fun d => VStr (strftime d CIRCLE_DATETIME_FORMAT)) <$> fd
  /\ getitem "to" q = (fun d => VStr (strftime d CIRCLE_DATETIME_FORMAT)) <$> td
  /\ getitem "walletId" q = VStr <$> absent_if_falsy wl
  /\ getitem "destinationWalletId" q = VStr <$> absent_if_falsy dst
  /\ getitem "sourceWalletId" q = VStr <$> absent_if_falsy src
  /\ getitem "pageSize" q = VInt <$> absent_if_falsy ps.
Proof.
  unfold conflicting, expected_query, query_item, if_truthy, absent_if_falsy.
  intros Hc.
  destruct fd as [fd|], td as [td|]; cbn [truthy truthy_datetime];
    destruct wl as [[|c1 wl]|], dst as [[|c2 dst]|], src as [[|c3 src]|];
    try discriminate Hc;
    destruct ps as [ps|]; cbn [truthy truthy_optional truthy_str];
    try destruct (truthy ps) eqn:Hps; rewrite ?Hps;
    repeat split; reflexivity.
Qed.

Lemma expected_query_other fd td ps wl dst src k :
  k ∉ query_keys -> getitem k (expected_query fd td ps wl dst src) = None.
Proof.
  unfold query_keys. intros Hk.
  assert (H1 : String.eqb k "from" = false) by (apply String.eqb_neq; set_solver).
  assert (H2 : String.eqb k "to" = false) by (apply String.eqb_neq; set_solver).
  assert (H3 : String.eqb k "walletId" = false)
    by (apply String.eqb_neq; set_solver).
  assert (H4 : String.eqb k "destinationWalletId" = false)
    by (apply String.eqb_neq; set_solver).
  assert (H5 : String.eqb k "sourceWalletId" = false)
    by (apply String.eqb_neq; set_solver).
  assert (H6 : String.eqb k "pageSize" = false)
    by (apply String.eqb_neq; set_solver).
  unfold expected_query, query_item, if_truthy.
  destruct fd as [fd|], td as [td|]; cbn [truthy truthy_datetime];
    destruct wl as [[|c1 wl]|], dst as [[|c2 dst]|], src as [[|c3 src]|];
    destruct ps as [ps|]; try destruct (truthy ps);
    cbn [app getitem truthy truthy_str];
    rewrite ?H1, ?H2, ?H3, ?H4, ?H5, ?H6; reflexivity.
Qed.

Lemma expected_query_keys fd td ps wl dst src :
  NoDup (fst <$> expected_query fd td ps wl dst src).
Proof.
  unfold expected_query, query_item, if_truthy.
  destruct fd as [fd|], td as [td|]; cbn [truthy truthy_datetime];
    destruct wl as [[|c1 wl]|], dst as [[|c2 dst]|], src as [[|c3 src]|];
    destruct ps as [ps|]; try destruct (truthy ps);
    cbn [app fmap list_fmap fst truthy truthy_str];
    apply (bool_decide_unpack _); vm_compute; reflexivity.
Qed.

Lemma get_transfers_issued self fd td ps wl dst src w :
  issued (get_transfers remote self fd td ps wl dst src) w
  = if conflicting wl dst src then []
    else [(_session self,
           {| req_method := "GET";
              req_url := url self +:+ "/transfers";
              req_params := expected_query fd td ps wl dst src;
              req_json := None;
              req_timeout := timeout self |})].
Proof.
  destruct (conflicting wl dst src) eqn:Hc.
  - apply issued_same. rewrite get_transfers_clash by exact Hc. reflexivity.
  - apply issued_append. rewrite get_transfers_pass by exact Hc.
    unfold session_get. rewrite send_json_world. reflexivity.
Qed.

(** X2: the query of an accepted list-transfers call, key by key: a key is
    present exactly when its argument is truthy and then carries the
    argument (a datetime always is, and is formatted); no other key
    occurs and no key occurs twice.  In particular a source and a
    destination filter go out together, and a page size is forwarded
    unchecked, negative ones included. *)
Theorem get_transfers_query self fd td ps wl dst src w :
  conflicting wl dst src = false ->
  exists r,
    issued (get_transfers remote self fd td ps wl dst src) w
      = [(_session self, r)]
    /\ getitem "from" (req_params r)
       = (fun d => VStr (strftime d CIRCLE_DATETIME_FORMAT)) <$> fd
    /\ getitem "to" (req_params r)
       = (fun d => VStr (strftime d CIRCLE_DATETIME_FORMAT)) <$> td
    /\ getitem "walletId" (req_params r) = VStr <$> absent_if_falsy wl
    /\ getitem "destinationWalletId" (req_params r)
       = VStr <$> absent_if_falsy dst
    /\ getitem "sourceWalletId" (req_params r) = VStr <$> absent_if_falsy src
    /\ getitem "pageSize" (req_params r) = VInt <$> absent_if_falsy ps
    /\ (forall k, k ∉ query_keys -> getitem k (req_params r) = None)
    /\ NoDup (fst <$> req_params r).
Proof.
  intros Hc. eexists. split.
  { rewrite get_transfers_issued, Hc. reflexivity. }
  cbn [req_params].
  destruct (expected_query_lookup fd td ps wl dst src Hc)
    as (H1 & H2 & H3 & H4 & H5 & H6).
  repeat (split; [assumption|]). split.
  - intros k. apply expected_query_other.
  - apply expected_query_keys.
Qed.

(** X3: no request of [get_transfers] carries [walletId] next to
    [destinationWalletId] or [sourceWalletId]. *)
Theorem wallet_filter_exclusive self fd td ps wl dst src w l r :
  (l, r) ∈ issued (get_transfers remote self fd td ps wl dst src) w ->
  is_Some (getitem "walletId" (req_params r)) ->
  getitem "destinationWalletId" (req_params r) = None
  /\ getitem "sourceWalletId" (req_params r) = None.
Proof.
  rewrite get_transfers_issued.
  destruct (conflicting wl dst src) eqn:Hc; [by intros ?%elem_of_nil|].
  intros Hin%list_elem_of_singleton. injection Hin as -> ->. cbn [req_params].
  destruct (expected_query_lookup fd td ps wl dst src Hc)
    as (_ & _ & H3 & H4 & H5 & _).
  rewrite H3, H4, H5. intros [v Hv].
  unfold conflicting in Hc. unfold absent_if_falsy in *.
  destruct (truthy wl); [|discriminate Hv].
  cbn [andb] in Hc. apply orb_false_elim in Hc as [-> ->]. split; reflexivity.
Qed.

End Query.

(** ** Construction, sharing and closing *)

Section Lifecycle.

Variable default_session : Session.

Lemma init_new api_key api_url wallet_id timeout pool_size backoff_factor
    num_retries w :
  __init__ default_session api_key api_url wallet_id timeout pool_size
    backoff_factor num_retries None w
  = (Ok (client_of api_key api_url wallet_id timeout pool_size backoff_factor
           num_retries (fresh (dom (sessions w)))),
     {| sessions :=
          <[fresh (dom (sessions w)) :=
              configured_session default_session api_key pool_size
                num_retries backoff_factor]> (sessions w);
        wire := wire w |}).
Proof.
  unfold __init__, bind, Session_new, modify_session. cbn [sessions wire].
  rewrite !alter_insert_eq. reflexivity.
Qed.

Lemma init_injected api_key api_url wallet_id timeout pool_size backoff_factor
    num_retries l w :
  __init__ default_session api_key api_url wallet_id timeout pool_size
    backoff_factor num_retries (Some l) w
  = (Ok (client_of api_key api_url wallet_id timeout pool_size backoff_factor
           num_retries l), w).
Proof. reflexivity. Qed.

Lemma fresh_session_unused (w : world) :
  sessions w !! fresh (dom (sessions w)) = None.
Proof. apply not_elem_of_dom, is_fresh. Qed.

Lemma configured_headers api_key pool_size num_retries backoff_factor k :
  header_get k
    (headers (configured_session default_session api_key pool_size
                num_retries backoff_factor))
  = match client_header api_key k with
    | Some v => Some v
    | None => header_get k (headers default_session)
    end.
Proof.
  unfold configured_session.
  cbn [headers session_mount session_headers_update]. rewrite client_headers.
  unfold header_get, client_header, headers_update, header_set.
  cbn [foldl fst snd].
  change (lower "Authorization") with "authorization".
  change (lower "Accept") with "accept".
  change (lower "Content-Type") with "content-type".
  change (lower "User-Agent") with "user-agent".
  change (lower "X-Client-Name") with "x-client-name".
  generalize (lower k). intros n.
  rewrite !lookup_insert.
  repeat match goal with
         | |- context [String.eqb n ?s] => destruct (String.eqb_spec n s); subst
         end;
    repeat case_decide; try done; congruence.
Qed.

Lemma configured_adapters api_key pool_size num_retries backoff_factor p :
  adapters (configured_session default_session api_key pool_size
              num_retries backoff_factor) !! p
  = if String.eqb p "http://" || String.eqb p "https://"
    then Some (client_adapter pool_size num_retries backoff_factor)
    else adapters default_session !! p.
Proof.
  unfold configured_session.
  cbn [adapters session_mount session_headers_update].
  rewrite !lookup_insert.
  destruct (String.eqb_spec p "http://"), (String.eqb_spec p "https://");
    subst; repeat case_decide; try done; congruence.
Qed.

(** X6: the session a client makes for itself, looked up: a header name gets
    the client's value when it is one of the client's five names in any
    letter case, and the default session's value otherwise; a URL prefix gets the
    client's adapter when it is [http://] or [https://], and the default
    session's adapter otherwise. *)
Theorem init_session_lookup api_key api_url wallet_id timeout pool_size
    backoff_factor num_retries w :
  exists c s,
    fst (__init__ default_session api_key api_url wallet_id timeout pool_size
           backoff_factor num_retries None w) = Ok c
    /\ sessions (snd (__init__ default_session api_key api_url wallet_id
                        timeout pool_size backoff_factor num_retries None w))
         !! _session c = Some s
    /\ (forall k,
          header_get k (headers s)
          = match client_header api_key k with
            | Some v => Some v
            | None => header_get k (headers default_session)
            end)
    /\ (forall p,
          adapters s !! p
          = if String.eqb p "http://" || String.eqb p "https://"
            then Some (client_adapter pool_size num_retries backoff_factor)
            else adapters default_session !! p).
Proof.
  rewrite init_new. do 2 eexists. split; [reflexivity|]. split.
  - cbn [snd sessions client_of _session]. apply lookup_insert_eq.
  - split; intros; [apply configured_headers|apply configured_adapters].
Qed.

(** X7: two clients made without a session never share one: their sessions
    differ, making the second leaves the first one's session and every
    older session as they were, neither construction sends a request, and
    closing the first client leaves the session of the second open. *)
Theorem fresh_clients_separate
    k1 u1 i1 t1 p1 b1 n1 k2 u2 i2 t2 p2 b2 n2 w :
  exists c1 w1 c2 w2,
    __init__ default_session k1 u1 i1 t1 p1 b1 n1 None w = (Ok c1, w1)
    /\ __init__ default_session k2 u2 i2 t2 p2 b2 n2 None w1 = (Ok c2, w2)
    /\ _session c1 <> _session c2
    /\ sessions w2 !! _session c1
       = Some (configured_session default_session k1 p1 n1 b1)
    /\ sessions w2 !! _session c2
       = Some (configured_session default_session k2 p2 n2 b2)
    /\ (forall l s, sessions w !! l = Some s -> sessions w2 !! l = Some s)
    /\ wire w2 = wire w
    /\ sessions (snd (client_close c1 w2)) !! _session c2
       = Some (configured_session default_session k2 p2 n2 b2).
Proof.
  do 4 eexists. split; [apply init_new|]. split; [apply init_new|].
  cbn [client_of _session sessions wire].
  set (l1 := fresh (dom (sessions w))).
  set (m1 := <[l1 := _]> (sessions w)).
  set (l2 := fresh (dom m1)).
  assert (H1 : sessions w !! l1 = None) by apply fresh_session_unused.
  assert (H2 : m1 !! l2 = None) by apply not_elem_of_dom, is_fresh.
  assert (Hne : l1 <> l2).
  { intros E. rewrite <- E in H2. unfold m1 in H2.
    by rewrite lookup_insert_eq in H2. }
  split; [exact Hne|]. split.
  { rewrite lookup_insert_ne by congruence. apply lookup_insert_eq. }
  split; [apply lookup_insert_eq|]. split.
  { intros l s Hl.
    assert (l <> l1) by congruence.
    assert (m1 !! l = Some s) by (unfold m1; by rewrite lookup_insert_ne).
    assert (l <> l2) by congruence.
    by rewrite lookup_insert_ne. }
  split; [reflexivity|].
  unfold client_close, close, modify_session. cbn [snd sessions _session].
  rewrite lookup_alter_ne by exact Hne. apply lookup_insert_eq.
Qed.

(** X8: clients made on the same injected session hold that very session:
    leaving the scope of one closes the session the other one uses. *)
Theorem injected_session_shared
    k1 u1 i1 t1 p1 b1 n1 k2 u2 i2 t2 p2 b2 n2 l w :
  exists c1 c2,
    __init__ default_session k1 u1 i1 t1 p1 b1 n1 (Some l) w = (Ok c1, w)
    /\ __init__ default_session k2 u2 i2 t2 p2 b2 n2 (Some l) w = (Ok c2, w)
    /\ _session c1 = l /\ _session c2 = l
    /\ (forall A (body : CircleClient -> M A) w',
          sessions (snd (with_ c1 body w')) !! _session c2
          = session_close <$> sessions (snd (body c1 w')) !! _session c2).
Proof.
  do 2 eexists. split; [apply init_injected|]. split; [apply init_injected|].
  split; [reflexivity|]. split; [reflexivity|].
  intros A body w'. unfold with_, __enter__. rewrite bind_ret.
  destruct (body _ w') as [[a|e] wb]; cbn; apply lookup_alter_eq.
Qed.

End Lifecycle.

Section Scoped.

Variable remote : world -> nat -> request -> failure + response.

(** X10: an operation run inside [with]: the request goes out on the session as
    it is before the scope is left, the answer (or the exception) of the
    operation is the outcome of the statement, and the session is closed
    afterwards in either case. *)
Theorem with_operation mgr (op : CircleClient -> M json) w r :
  relays remote mgr (op mgr) w r ->
  with_ mgr op w
  = (match outcome (remote w (_session mgr) r) with
     | Ok j => Ok (Some j)
     | Raise e => Raise e
     end,
     {| sessions := alter session_close (_session mgr) (sessions w);
        wire := (wire w ++ [(_session mgr, r)])%list |}).
Proof.
  unfold relays. intros H. unfold with_, __enter__. rewrite bind_ret, H.
  destruct (outcome (remote w (_session mgr) r)); reflexivity.
Qed.

End Scoped.

Lemma with_operation_witness :
  relays remote_ok client0 (get_wallet remote_ok client0) world0
    {| req_method := "GET"; req_url := "https://api.example/wallets/1000";
       req_params := []; req_json := None; req_timeout := Some (PyInt 10) |}
  /\ with_ client0 (get_wallet remote_ok) world0
     = (Ok (Some JNull),
        {| sessions := alter session_close 0 (sessions world0);
           wire := [(0, {| req_method := "GET";
                           req_url := "https://api.example/wallets/1000";
                           req_params := []; req_json := None;
                           req_timeout := Some (PyInt 10) |})] |}).
Proof.
  split; [reflexivity|].
  apply (with_operation remote_ok client0 (get_wallet remote_ok) world0).
  reflexivity.
Defined.

(** ** Timestamps read back *)

Section TimestampsBack.

Context {libc : CLibrary}.

Local Open Scope Z_scope.

Lemma digit_inj z z' :
  0 <= z < 10 -> 0 <= z' < 10 -> digit z = digit z' -> z = z'.
Proof.
  intros Hz Hz' H. unfold digit in H.
  apply (f_equal nat_of_ascii) in H.
  rewrite !nat_ascii_embedding in H by lia. lia.
Qed.

Lemma fixed_width_mod k n m :
  fixed_width k n = fixed_width k m -> n mod 10 ^ Z.of_nat k = m mod 10 ^ Z.of_nat k.
Proof.
  induction k as [|k IH]; intros H.
  - change (10 ^ Z.of_nat 0) with 1. by rewrite !Z.mod_1_r.
  - cbn [fixed_width] in H. injection H as Hd Ht.
    apply digit_inj in Hd; try (apply Z.mod_pos_bound; lia).
    specialize (IH Ht).
    rewrite Nat2Z.inj_succ, Z.pow_succ_r, (Z.mul_comm 10) by lia.
    rewrite !Z.rem_mul_r by (try apply Z.pow_nonzero; lia).
    rewrite IH, Hd. reflexivity.
Qed.

Lemma fixed_width_inj k n m :
  0 <= n < 10 ^ Z.of_nat k -> 0 <= m < 10 ^ Z.of_nat k ->
  fixed_width k n = fixed_width k m -> n = m.
Proof.
  intros Hn Hm H. apply fixed_width_mod in H.
  by rewrite !Z.mod_small in H.
Qed.

Lemma str_app_inv (a a' b b' : string) :
  String.length a = String.length a' ->
  a +:+ b = a' +:+ b' -> a = a' /\ b = b'.
Proof.
  revert a'. induction a as [|x a IH]; intros [|x' a'] Hl H;
    try discriminate Hl.
  - by rewrite !str_app_nil_l in H.
  - rewrite !str_app_cons in H. injection H as -> H.
    cbn [String.length] in Hl.
    destruct (IH a' ltac:(lia) H) as [-> ->]. done.
Qed.

Lemma string_tail c c' (s s' : string) : String c s = String c' s' -> s = s'.
Proof. intros H. by injection H. Qed.

Lemma split_at_dash (a a' s s' : string) :
  all_digits a = true -> all_digits a' = true ->
  a +:+ String "-" s = a' +:+ String "-" s' -> a = a' /\ s = s'.
Proof.
  revert a'. induction a as [|x a IH]; intros [|x' a'] Ha Ha' H.
  - rewrite !str_app_nil_l in H. injection H as ->. done.
  - rewrite str_app_nil_l, str_app_cons in H. injection H as <- _.
    discriminate Ha'.
  - rewrite str_app_nil_l, str_app_cons in H. injection H as -> _.
    discriminate Ha.
  - rewrite !str_app_cons in H. injection H as -> H.
    cbn [all_digits] in Ha, Ha'.
    apply andb_prop in Ha as [_ Ha]. apply andb_prop in Ha' as [_ Ha'].
    destruct (IH a' Ha Ha' H) as [-> ->]. done.
Qed.

Lemma all_digits_year y : 1 <= y -> all_digits (fmt_d y) = true.
Proof.
  intros Hy. destruct y as [|p|p]; try lia.
  apply (pretty_pos_digits p).
Qed.

(** X4: the serialization of a timestamp loses the zone and nothing else: two
    [datetime] objects that are sent as the same string agree on year,
    month, day, hour, minute, second and microsecond. *)
Theorem timestamp_wall_clock_inj d d' :
  valid d = true -> valid d' = true ->
  strftime d CIRCLE_DATETIME_FORMAT = strftime d' CIRCLE_DATETIME_FORMAT ->
  wall_clock d = wall_clock d'.
Proof.
  intros Hv Hv' H.
  rewrite !strftime_valid_parts in H by assumption.
  apply valid_ranges in Hv, Hv'.
  assert (Hyear : year d = year d'
                  /\ fixed_width 2 (month d) +:+ String "-" (
                     fixed_width 2 (day d) +:+ String "T" (
                     fixed_width 2 (hour d) +:+ String ":" (
                     fixed_width 2 (minute d) +:+ String ":" (
                     fixed_width 2 (second d) +:+ String "." (
                     fixed_width 6 (microsecond d) +:+ String "Z" "")))))
                   = fixed_width 2 (month d') +:+ String "-" (
                     fixed_width 2 (day d') +:+ String "T" (
                     fixed_width 2 (hour d') +:+ String ":" (
                     fixed_width 2 (minute d') +:+ String ":" (
                     fixed_width 2 (second d') +:+ String "." (
                     fixed_width 6 (microsecond d') +:+ String "Z" "")))))).
  { destruct pads_year.
    - apply str_app_inv in H as [Hk H]; [|by rewrite !length_fixed_width].
      apply fixed_width_inj in Hk; [|cbn; lia..].
      apply string_tail in H. done.
    - apply split_at_dash in H as [Hk H]; [|apply all_digits_year; lia..].
      apply (inj pretty) in Hk. done. }
  clear H. destruct Hyear as [Hy H].
  repeat match type of H with
         | fixed_width ?k _ +:+ String _ _ = _ =>
             let Hk := fresh "Hk" in
             apply str_app_inv in H as [Hk H];
             [apply fixed_width_inj in Hk; [|cbn; lia..];
              apply string_tail in H
             |by rewrite !length_fixed_width]
         end.
  unfold wall_clock. congruence.
Qed.

End TimestampsBack.

Lemma timestamp_wall_clock_inj_witness :
  valid morning = true
  /\ valid (replace_tzinfo morning (Some tz_plus5)) = true
  /\ wall_clock morning = wall_clock (replace_tzinfo morning (Some tz_plus5)).
Proof.
  split; [reflexivity|]. split; [reflexivity|].
  apply (timestamp_wall_clock_inj (libc := glibc) morning
           (replace_tzinfo morning (Some tz_plus5))); reflexivity.
Defined.

(** ** Notation of amounts *)

Section Notation.

Context {ctx : DecimalContext}.

Local Open Scope Z_scope.

Lemma contains_app c (a b : string) :
  contains c (a +:+ b) = contains c a || contains c b.
Proof.
  induction a as [|x a IH]; [reflexivity|].
  rewrite str_app_cons. cbn [contains]. rewrite IH. by rewrite orb_assoc.
Qed.

Lemma digits_no_letter s :
  all_digits s = true -> contains "E" s = false /\ contains "e" s = false.
Proof.
  induction s as [|x s IH]; [done|].
  cbn [all_digits contains]. intros H. apply andb_prop in H as [Hx Hs].
  destruct (IH Hs) as [-> ->]. apply is_digit_cases in Hx.
  repeat destruct Hx as [->|Hx]; try done. by subst.
Qed.

Lemma fmt_plus_d_no_letter n :
  contains "E" (fmt_plus_d n) = false /\ contains "e" (fmt_plus_d n) = false.
Proof.
  unfold fmt_plus_d. destruct n as [|p|p]; cbn [Z.leb Z.compare].
  - done.
  - destruct (pretty_pos_digits p) as (Hd & _ & _).
    change ("+" +:+ pretty (Z.pos p)) with (String "+" (pretty (Z.pos p))).
    cbn [contains]. by destruct (digits_no_letter _ Hd) as [-> ->].
  - destruct (pretty_pos_digits p) as (Hd & _ & _).
    change (pretty (Z.neg p)) with (String "-" (pretty (Z.pos p))).
    cbn [contains]. by destruct (digits_no_letter _ Hd) as [-> ->].
Qed.

(** The letter the context asks for is in a printed number exactly when
    the number has an exponent; the other letter never is. *)
Lemma numeral_letter sg ip fp oe :
  all_digits ip = true -> all_digits (default "" fp) = true ->
  contains (if capitals then "E" else "e") (numeral sg ip fp oe)
    = (match oe with Some _ => true | None => false end)
  /\ contains (if capitals then "e" else "E") (numeral sg ip fp oe) = false.
Proof.
  intros Hip Hfp. unfold numeral. rewrite !contains_app.
  destruct (digits_no_letter ip Hip) as [HipE Hipe].
  assert (HfE : contains "E" match fp with Some f => "." +:+ f | None => "" end
                = false
                /\ contains "e"
                     match fp with Some f => "." +:+ f | None => "" end
                   = false).
  { destruct fp as [f|]; [|done].
    change ("." +:+ f) with (String "." f). cbn [contains].
    cbn [default from_option id] in Hfp.
    by destruct (digits_no_letter f Hfp) as [-> ->]. }
  destruct HfE as [HfE Hfe].
  assert (HoE : forall c,
             contains c
               match oe with
               | Some n => (if capitals then "E" else "e") +:+ fmt_plus_d n
               | None => ""
               end
             = match oe with
               | Some n =>
                   contains c
                     (String (if capitals then "E" else "e")%char
                        (fmt_plus_d n))
               | None => false
               end).
  { intros c. destruct oe as [n|]; [|reflexivity]. by destruct capitals. }
  rewrite !HoE.
  destruct capitals, sg, oe as [n|]; cbn [contains];
    rewrite ?HipE, ?Hipe, ?HfE, ?Hfe;
    try destruct (fmt_plus_d_no_letter n) as [-> ->]; done.
Qed.

(** X5: a finite [Decimal] amount goes out in plain notation exactly when
    its exponent is at most 0 and the exponent plus the number of digits
    of the coefficient is above -6; any other amount, [Decimal("1E+3")]
    or [Decimal("0.0000001")] for instance, goes out in scientific
    notation, with the exponent letter of the decimal context: E when
    [capitals] is set, as it is by default, and e when it is not. *)
Theorem amount_scientific_notation sg ds e :
  all_digits ds = true -> ds <> "" ->
  contains (if capitals then "E" else "e")
    (str (OfDecimal {| _sign := sg; _int := ds; _exp := Finite e |}))
    = negb ((e <=? 0) && (-6 <? e + len ds))
  /\ contains (if capitals then "e" else "E")
       (str (OfDecimal {| _sign := sg; _int := ds; _exp := Finite e |}))
     = false.
Proof.
  intros Hd Hne. cbn [str].
  assert (HL : 1 <= len ds).
  { unfold len. destruct ds; [done|]. cbn [String.length]. lia. }
  destruct (all_digits_take_drop (Z.to_nat (e + len ds)) ds Hd) as [Ht Hdr].
  destruct (all_digits_take_drop 1 ds Hd) as [Ht1 Hdr1].
  assert (Hz : forall z, all_digits (ds +:+ str_mul "0" z) = true).
  { intros z. unfold str_mul. by rewrite all_digits_app, Hd, all_digits_zeros. }
  assert (Hz' : forall z, all_digits (str_mul "0" z +:+ ds) = true).
  { intros z. unfold str_mul. by rewrite all_digits_app, Hd, all_digits_zeros. }
  rewrite str_finite_cases. cbv zeta.
  destruct ((e <=? 0) && (-6 <? e + len ds)) eqn:Hplain; cbn [negb].
  - destruct (e + len ds <=? 0); [|destruct (len ds <=? e + len ds)];
      (apply numeral_letter;
       first [reflexivity|assumption|apply Hz|apply Hz']).
  - assert (Hsci : (e + len ds =? 1) = false).
    { apply Z.eqb_neq. intros E1. apply andb_false_iff in Hplain as [H|H].
      - apply Z.leb_gt in H. lia.
      - apply Z.ltb_ge in H. lia. }
    rewrite Hsci.
    destruct (len ds <=? 1);
      (apply numeral_letter;
       first [reflexivity|assumption|apply Hz|apply Hz']).
Qed.

End Notation.

(** [Decimal("1E+3")] under the default context and under one with
    [capitals = 0]. *)
Lemma amount_scientific_notation_witness :
  all_digits "1" = true /\ "1" <> ""
  /\ str (ctx := default_context)
       (OfDecimal {| _sign := false; _int := "1"; _exp := Finite 3 |})
     = "1E+3"
  /\ str (ctx := lowercase_context)
       (OfDecimal {| _sign := false; _int := "1"; _exp := Finite 3 |})
     = "1e+3"
  /\ contains "e"
       (str (ctx := lowercase_context)
          (OfDecimal {| _sign := false; _int := "1"; _exp := Finite 3 |}))
     = true
  /\ contains "E"
       (str (ctx := lowercase_context)
          (OfDecimal {| _sign := false; _int := "1"; _exp := Finite 3 |}))
     = false.
Proof.
  split; [reflexivity|]. split; [discriminate|].
  split; [reflexivity|]. split; [reflexivity|].
  apply (amount_scientific_notation (ctx := lowercase_context) false "1" 3);
    [reflexivity|discriminate].
Defined.

(** ** A client and its own session *)

Section OwnSession.

Variable default_session : Session.
Variable remote : world -> nat -> request -> failure + response.

(** X11: a client made without a session sends on the session it made: the
    request of an operation is recorded on that session, and after the
    call the session is still the configured one, bearer header
    included, with its pools open. *)
Theorem fresh_client_request api_key api_url wallet_id timeout pool_size
    backoff_factor num_retries w (op : CircleClient -> M json) r :
  let c := client_of api_key api_url wallet_id timeout pool_size
             backoff_factor num_retries (fresh (dom (sessions w))) in
  let w1 := snd (__init__ default_session api_key api_url wallet_id timeout
                   pool_size backoff_factor num_retries None w) in
  relays remote c (op c) w1 r ->
  fst (__init__ default_session api_key api_url wallet_id timeout
         pool_size backoff_factor num_retries None w) = Ok c
  /\ issued (op c) w1 = [(_session c, r)]
  /\ sessions (snd (op c w1)) !! _session c
     = Some (configured_session default_session api_key pool_size
               num_retries backoff_factor)
  /\ header_get "Authorization"
       (headers (configured_session default_session api_key pool_size
                   num_retries backoff_factor))
     = Some ("Bearer " +:+ api_key)
  /\ adapters (configured_session default_session api_key pool_size
                 num_retries backoff_factor) !! "https://"
     = Some (client_adapter pool_size num_retries backoff_factor)
  /\ pool_cleared (client_adapter pool_size num_retries backoff_factor)
     = false.
Proof.
  intros c w1 H. subst w1. rewrite init_new in *. cbn [fst snd] in *.
  split; [reflexivity|]. split; [by apply (relays_issued remote)|].
  unfold relays in H. rewrite H. cbn [snd sessions client_of _session].
  split; [apply lookup_insert_eq|]. split.
  - rewrite configured_headers. reflexivity.
  - split; [|reflexivity]. rewrite configured_adapters. reflexivity.
Qed.

End OwnSession.

Lemma fresh_client_request_witness :
  relays remote_ok
    (client_of "key" "https://api.example" "1000" None 10
       DEFAULT_BACKOFF_FACTOR 3 (fresh (dom (sessions world0))))
    (get_wallet remote_ok
       (client_of "key" "https://api.example" "1000" None 10
          DEFAULT_BACKOFF_FACTOR 3 (fresh (dom (sessions world0)))))
    (snd (__init__ empty_session "key" "https://api.example" "1000" None 10
            DEFAULT_BACKOFF_FACTOR 3 None world0))
    {| req_method := "GET"; req_url := "https://api.example/wallets/1000";
       req_params := []; req_json := None; req_timeout := None |}
  /\ header_get "Authorization"
       (headers (configured_session empty_session "key" 10 3
                   DEFAULT_BACKOFF_FACTOR))
     = Some "Bearer key".
Proof.
  split; [apply (send_json_relays remote_ok)|].
  apply (fresh_client_request empty_session remote_ok "key"
           "https://api.example" "1000" None 10 DEFAULT_BACKOFF_FACTOR 3
           world0 (get_wallet remote_ok)
           {| req_method := "GET";
              req_url := "https://api.example/wallets/1000";
              req_params := []; req_json := None; req_timeout := None |}).
  apply (send_json_relays remote_ok).
Defined.

Lemma get_transfers_query_witness :
  conflicting None (Some "2000") (Some "3000") = false
  /\ exists r,
      issued (get_transfers (libc := glibc) remote_ok client0 (Some morning)
                None (Some (-5)%Z) None (Some "2000") (Some "3000")) world0
        = [(_session client0, r)]
      /\ getitem "destinationWalletId" (req_params r) = Some (VStr "2000")
      /\ getitem "sourceWalletId" (req_params r) = Some (VStr "3000")
      /\ getitem "pageSize" (req_params r) = Some (VInt (-5))
      /\ getitem "walletId" (req_params r) = None.
Proof.
  split; [reflexivity|].
  destruct (get_transfers_query (libc := glibc) remote_ok client0
              (Some morning) None
              (Some (-5)%Z) None (Some "2000") (Some "3000") world0 eq_refl)
    as (r & Hi & _ & _ & Hw & Hd & Hs & Hp & _).
  exists r. repeat split; assumption.
Defined.

Lemma wallet_filter_exclusive_witness :
  (0, {| req_method := "GET"; req_url := "https://api.example/transfers";
         req_params := [("walletId", VStr "1000")]; req_json := None;
         req_timeout := Some (PyInt 10) |})
    ∈ issued (get_transfers (libc := glibc) remote_ok client0 None None None
                (Some "1000") None None) world0
  /\ is_Some (getitem "walletId" [("walletId", VStr "1000")])
  /\ getitem "destinationWalletId" [("walletId", VStr "1000")] = None
  /\ getitem "sourceWalletId" [("walletId", VStr "1000")] = None.
Proof.
  assert (Hin : (0, {| req_method := "GET";
                       req_url := "https://api.example/transfers";
                       req_params := [("walletId", VStr "1000")];
                       req_json := None;
                       req_timeout := Some (PyInt 10) |})
                ∈ issued (get_transfers (libc := glibc) remote_ok client0
                            None None None (Some "1000") None None) world0).
  { apply list_elem_of_singleton. reflexivity. }
  assert (Hsome : is_Some (getitem "walletId" [("walletId", VStr "1000")])).
  { eexists. reflexivity. }
  split; [exact Hin|]. split; [exact Hsome|].
  exact (wallet_filter_exclusive (libc := glibc) remote_ok client0 None None None
           (Some "1000") None None world0 _ _ Hin Hsome).
Defined.
